(** * GCodeReader: the parse-and-dispatch engine of [cnc.py]

    A shallow embedding of [MachineClient.parse_gcode], its handlers,
    [extract_args] and the line classifier [_non_empty_lines], together with
    the properties of the specification that concern them.

    Conventions.
    - A Python [str] is a [string]; each [ascii] is a code point below 256.
    - [re.match(p, s) is not None] is language membership of a prefix of [s];
      the patterns of the module are regular expressions in the type [regex]
      below and are matched with Brzozowski derivatives.
    - The machine actions print; the output stream is a list of [event]s that
      is threaded through every handler.
    - The builtins [float] and [int] are parameters of the development. *)

From Stdlib Require Import String Ascii List Bool Arith Lia PrimFloat ZArith DecimalString.
Import ListNotations.
Local Open Scope string_scope.
Local Open Scope list_scope.
Local Open Scope nat_scope.

Set Implicit Arguments.

(** ** Characters and strings *)

(** [str.isspace] on code points below 256, which is also the class [\s] of
    str patterns: TAB..CR, FS..US, SPACE, NEL and NBSP. *)
Definition isspace (c : ascii) : bool :=
  let n := nat_of_ascii c in
  ((9 <=? n) && (n <=? 13)) || ((28 <=? n) && (n <=? 32))
  || (n =? 133) || (n =? 160).

(** The class [[0-9]]. *)
Definition is_digit (c : ascii) : bool :=
  let n := nat_of_ascii c in (48 <=? n) && (n <=? 57).

Definition newline : ascii := "010"%char.

(** The class [.] (no DOTALL flag): anything but a newline. *)
Definition is_dot (c : ascii) : bool := negb (Ascii.eqb c newline).

(** [s.startswith(p)] *)
Definition startswith (s p : string) : bool := String.prefix p s.

(** [s[1:]] *)
Definition tail_str (s : string) : string :=
  match s with
  | EmptyString => EmptyString
  | String _ s' => s'
  end.

(** [s.lstrip()] *)
Fixpoint lstrip (s : string) : string :=
  match s with
  | EmptyString => EmptyString
  | String c s' => if isspace c then lstrip s' else s
  end.

(** [s.rstrip()]: a character is kept when something that is kept follows it
    or when it is not whitespace. *)
Fixpoint rstrip (s : string) : string :=
  match s with
  | EmptyString => EmptyString
  | String c s' =>
      match rstrip s' with
      | EmptyString => if isspace c then EmptyString else String c EmptyString
      | r => String c r
      end
  end.

(** [s.strip()] *)
Definition strip (s : string) : string := rstrip (lstrip s).

(** [s.split(" ")]: splits at every single space, keeping empty pieces. *)
Fixpoint split_space (s : string) : list string :=
  match s with
  | EmptyString => [EmptyString]
  | String c s' =>
      if Ascii.eqb c " "%char then EmptyString :: split_space s'
      else match split_space s' with
           | [] => [String c EmptyString]
           | p :: ps => String c p :: ps
           end
  end.

(** [str.upper] on the ASCII letters.  The code only compares the result with
    ["G00"], and no other character has an upper case of [G] or [0]. *)
Definition upper_char (c : ascii) : ascii :=
  let n := nat_of_ascii c in
  if (97 <=? n) && (n <=? 122) then ascii_of_nat (n - 32) else c.

Fixpoint upper (s : string) : string :=
  match s with
  | EmptyString => EmptyString
  | String c s' => String (upper_char c) (upper s')
  end.

(** [f"{n}"] for an [int] *)
Definition str_of_int (n : nat) : string :=
  NilEmpty.string_of_uint (Nat.to_uint n).

(** ** Regular expressions and [re.match] *)

Module Regex.

Inductive regex : Type :=
| Empty
| Eps
| Class (p : ascii -> bool)
| Seq (r1 r2 : regex)
| Alt (r1 r2 : regex)
| Star (r : regex).

Definition Chr (c : ascii) : regex := Class (Ascii.eqb c).
Definition Plus (r : regex) : regex := Seq r (Star r).

Fixpoint Rep (n : nat) (r : regex) : regex :=
  match n with
  | 0 => Eps
  | S n' => Seq r (Rep n' r)
  end.

(** The language of a regular expression. *)
Inductive matches : regex -> string -> Prop :=
| MEps : matches Eps ""
| MClass p c : p c = true -> matches (Class p) (String c "")
| MSeq r1 r2 s1 s2 :
    matches r1 s1 -> matches r2 s2 -> matches (Seq r1 r2) (s1 ++ s2)%string
| MAltL r1 r2 s : matches r1 s -> matches (Alt r1 r2) s
| MAltR r1 r2 s : matches r2 s -> matches (Alt r1 r2) s
| MStar0 r : matches (Star r) ""
| MStarS r s1 s2 :
    matches r s1 -> matches (Star r) s2 -> matches (Star r) (s1 ++ s2)%string.

Fixpoint nullable (r : regex) : bool :=
  match r with
  | Empty => false
  | Eps => true
  | Class _ => false
  | Seq r1 r2 => nullable r1 && nullable r2
  | Alt r1 r2 => nullable r1 || nullable r2
  | Star _ => true
  end.

Fixpoint deriv (c : ascii) (r : regex) : regex :=
  match r with
  | Empty => Empty
  | Eps => Empty
  | Class p => if p c then Eps else Empty
  | Seq r1 r2 =>
      if nullable r1 then Alt (Seq (deriv c r1) r2) (deriv c r2)
      else Seq (deriv c r1) r2
  | Alt r1 r2 => Alt (deriv c r1) (deriv c r2)
  | Star r1 => Seq (deriv c r1) (Star r1)
  end.

(** [re.match(r, s) is not None] for a pattern [^r]: some prefix of [s] is in
    the language of [r]. *)
Fixpoint re_match (r : regex) (s : string) : bool :=
  nullable r
  || match s with
     | EmptyString => false
     | String c s' => re_match (deriv c r) s'
     end.

(** [re.match(r, s) is not None] for a pattern [^r$]: the match ends at the
    end of [s] or just before a newline that ends [s]. *)
Fixpoint re_match_eol (r : regex) (s : string) : bool :=
  match s with
  | EmptyString => nullable r
  | String c s' =>
      (nullable r && Ascii.eqb c newline && String.eqb s' "")
      || re_match_eol (deriv c r) s'
  end.

End Regex.
Import Regex.

(** The patterns of the module.  [re.match] anchors at position 0, which is
    what the leading [^] of each alternative asks for. *)

(** [_COMMENT_PATTERN = ^\(.*\)$] *)
Definition _COMMENT_PATTERN : regex :=
  Seq (Chr "(") (Seq (Star (Class is_dot)) (Chr ")")).

(** [_PROGRAM_NUM_PATTERN = ^O[0-9]{4}$] *)
Definition _PROGRAM_NUM_PATTERN : regex :=
  Seq (Chr "O") (Rep 4 (Class is_digit)).

(** [_CMD_PATTERN = ^N[0-9]+\s.*$] *)
Definition _CMD_PATTERN : regex :=
  Seq (Chr "N")
      (Seq (Plus (Class is_digit))
           (Seq (Class isspace) (Star (Class is_dot)))).

(** [_CMD_START_PATTERN = ^N[0-9]+|^G[0-9]+|^M[0-9]+|^S[0-9]+|^F[0-9]+] *)
Definition _CMD_START_PATTERN : regex :=
  Alt (Seq (Chr "N") (Plus (Class is_digit)))
      (Alt (Seq (Chr "G") (Plus (Class is_digit)))
           (Alt (Seq (Chr "M") (Plus (Class is_digit)))
                (Alt (Seq (Chr "S") (Plus (Class is_digit)))
                     (Seq (Chr "F") (Plus (Class is_digit)))))).

(** ** The machine: output events, exceptions, and the monad of handlers *)

(** [Cmd = namedtuple("Cmd", ["n_args", "fn"])] is declared after the monad. *)

(** One entry per call of a [MachineClient] action (each of them prints one
    line) and per direct [print] of a handler. *)
Inductive event : Type :=
| Print (msg : string)
| Call_home
| Call_move (x y z : float)
| Call_move_x (value : float)
| Call_move_y (value : float)
| Call_move_z (value : float)
| Call_set_feed_rate (value : float)
| Call_set_spindle_speed (value : Z)
| Call_change_tool (tool_name : string)
| Call_coolant_on
| Call_coolant_off.

(** The exceptions the module can raise. *)
Inductive exn : Type :=
| RuntimeError (msg : string)
| ValueError (msg : string)
| AssertionError (msg : string)
| IndexError.

(** A computation reads the events emitted so far and returns them extended,
    with a value or the exception that ended it; [None] is a loop that ran out
    of its iteration bound (see [dispatch_loop]). *)
Definition M (A : Type) : Type :=
  list event -> option ((exn + A) * list event).

Definition ret {A} (a : A) : M A := fun out => Some (inr a, out).

Definition raise {A} (e : exn) : M A := fun out => Some (inl e, out).

Definition emit (ev : event) : M unit := fun out => Some (inr tt, out ++ [ev]).

Definition bind {A B} (m : M A) (k : A -> M B) : M B :=
  fun out =>
    match m out with
    | None => None
    | Some (inl e, out') => Some (inl e, out')
    | Some (inr a, out') => k a out'
    end.

Notation "x <- m ;; k" := (bind m (fun x => k))
  (at level 61, m at next level, right associativity).
Notation "m ;;; k" := (bind m (fun _ => k))
  (at level 61, right associativity).

(** [for x in xs: body(x)] *)
Fixpoint for_each {A} (xs : list A) (body : A -> M unit) : M unit :=
  match xs with
  | [] => ret tt
  | x :: xs' => body x ;;; for_each xs' body
  end.

(** [enumerate(xs, start)] *)
Fixpoint enumerate {A} (start : nat) (xs : list A) : list (nat * A) :=
  match xs with
  | [] => []
  | x :: xs' => (start, x) :: enumerate (S start) xs'
  end.

(** The result of a conversion builtin: the value, or the message of the
    [ValueError] it raises. *)
Inductive conv (A : Type) : Type :=
| Conv (v : A)
| ConvError (msg : string).
Arguments Conv {A} v.
Arguments ConvError {A} msg.

(** The builtins [float(s)] and [int(s)] on a [str]. *)
Record builtins : Type := {
  py_float : string -> conv float;
  py_int : string -> conv Z
}.

(** [Cmd = namedtuple("Cmd", ["n_args", "fn"])]: the maximum number of
    parameters of a command and its callable [fn(gcode, ln, *args)]. *)
Record Cmd : Type := {
  n_args : nat;
  fn : string -> nat -> list string -> M unit
}.

(** A [Dict[str, Cmd]] as the list of its items; the keys of the literal in
    [__init__] are distinct. *)
Definition dict : Type := list (string * Cmd).

(** [d.get(key)]: [key in d] is [Some], and then [d[key]] is its content. *)
Fixpoint dict_get (d : dict) (key : string) : option Cmd :=
  match d with
  | [] => None
  | (k, v) :: d' => if String.eqb k key then Some v else dict_get d' key
  end.

(** ** [extract_args] *)

(** The loop [for j in range(max_idx)] from index [j], with [count] iterations
    left; [parts[j]] out of range raises [IndexError] ([None]). *)
Fixpoint extract_loop (parts : list string) (j count : nat)
    (args : list string) : option (list string) :=
  match count with
  | 0 => Some args
  | S count' =>
      match nth_error parts j with
      | None => None
      | Some p =>
          if re_match _CMD_START_PATTERN p then Some args
          else extract_loop parts (S j) count' (args ++ [p])
      end
  end.

Definition extract_args (parts : list string) (max_n_args : nat)
    : option (list string) :=
  let max_idx := Nat.min (length parts) max_n_args in
  extract_loop parts 0 max_idx [].

(** ** The line classifier *)

Definition _is_comment (line : string) : bool :=
  re_match_eol _COMMENT_PATTERN line.

Definition _is_program_number (line : string) : bool :=
  re_match_eol _PROGRAM_NUM_PATTERN line.

(** The generator [_non_empty_lines], as the list of what it yields. *)
Fixpoint _non_empty_lines (lines : list string) : list string :=
  match lines with
  | [] => []
  | line :: rest =>
      let stripped_line := strip line in
      if negb (String.length stripped_line =? 0)
         && negb (_is_comment stripped_line)
         && negb (_is_program_number stripped_line)
         && negb (String.eqb stripped_line "%")
      then stripped_line :: _non_empty_lines rest
      else _non_empty_lines rest
  end.

(** ** [class MachineClient] *)

(** [xs[i]] on a list or tuple. *)
Definition index {A} (xs : list A) (i : nat) : M A :=
  match nth_error xs i with
  | Some x => ret x
  | None => raise IndexError
  end.

(** [s[0]] on a [str]. *)
Definition str_first (s : string) : M string :=
  match s with
  | String c _ => ret (String c EmptyString)
  | EmptyString => raise IndexError
  end.

(** An [Optional] result whose [None] is an exception. *)
Definition or_raise {A} (e : exn) (o : option A) : M A :=
  match o with
  | Some a => ret a
  | None => raise e
  end.

Definition line_tag (ln : nat) : string := "[Line " ++ str_of_int ln ++ "]: ".

Section MachineClient.

Variable B : builtins.

(** *** The machine actions *)

Definition home : M unit := emit Call_home.
Definition move (x y z : float) : M unit := emit (Call_move x y z).
Definition move_x (value : float) : M unit := emit (Call_move_x value).
Definition move_y (value : float) : M unit := emit (Call_move_y value).
Definition move_z (value : float) : M unit := emit (Call_move_z value).
Definition set_feed_rate (value : float) : M unit :=
  emit (Call_set_feed_rate value).
Definition set_spindle_speed (value : Z) : M unit :=
  emit (Call_set_spindle_speed value).
Definition change_tool (tool_name : string) : M unit :=
  emit (Call_change_tool tool_name).
Definition coolant_on : M unit := emit Call_coolant_on.
Definition coolant_off : M unit := emit Call_coolant_off.

(** *** The handlers *)

Definition _parse_tool (gcode : string) (ln : nat) (args : list string)
    : M unit :=
  if negb (1 <? String.length gcode)
  then raise (AssertionError "Expected a gcode with more than 1 character")
  else
    let tool := tail_str gcode in
    change_tool tool.

Definition _parse_feedrate (gcode : string) (ln : nat) (args : list string)
    : M unit :=
  if negb (1 <? String.length gcode)
  then raise (AssertionError "Excepted a gcode with more than 1 character")
  else
    match py_float B (tail_str gcode) with
    | Conv val => set_feed_rate val
    | ConvError e =>
        raise (ValueError (line_tag ln ++ "Could not parse code " ++ gcode
                           ++ ": (" ++ e ++ ")"))
    end.

Definition _parse_speed (gcode : string) (ln : nat) (args : list string)
    : M unit :=
  if negb (1 <? String.length gcode)
  then raise (AssertionError "Expected a gcode with more than 1 character")
  else
    match py_int B (tail_str gcode) with
    | Conv speed => set_spindle_speed speed
    | ConvError e =>
        raise (ValueError (line_tag ln ++ "Could not parse command " ++ gcode
                           ++ ": (" ++ e ++ ")"))
    end.

(** The loop [for arg in args] of the general branch of [_parse_move], inside
    its [try]; [args] is the whole tuple, [rest] what is left to visit. *)
Fixpoint move_loop (gcode : string) (ln : nat) (args rest : list string)
    (xyz : float * float * float) : M (float * float * float) :=
  match rest with
  | [] => ret xyz
  | arg :: rest' =>
      let '(x, y, z) := xyz in
      let could_not_parse e :=
        ValueError (line_tag ln ++ "Could not parse argument " ++ arg
                    ++ " for code " ++ gcode ++ ": (" ++ e ++ ")") in
      if startswith arg "X" then
        match py_float B (tail_str arg) with
        | Conv v => move_loop gcode ln args rest' (v, y, z)
        | ConvError e => raise (could_not_parse e)
        end
      else if startswith arg "Y" then
        match py_float B (tail_str arg) with
        | Conv v => move_loop gcode ln args rest' (x, v, z)
        | ConvError e => raise (could_not_parse e)
        end
      else if startswith arg "Z" then
        match py_float B (tail_str arg) with
        | Conv v => move_loop gcode ln args rest' (x, y, v)
        | ConvError e => raise (could_not_parse e)
        end
      else
        a0 <- index args 0 ;;
        raise (RuntimeError (line_tag ln ++ "Unknown parameter " ++ a0
                             ++ " for code: " ++ gcode))
  end.

Definition _parse_move (gcode : string) (ln : nat) (args : list string)
    : M unit :=
  if String.eqb (upper gcode) "G00" && (length args =? 0)
  then emit (Print "Set rapid positioning")
  else if length args =? 1 then
    a0 <- index args 0 ;;
    match py_float B (tail_str a0) with
    | ConvError e =>
        raise (ValueError (line_tag ln ++ "Could not parse argument " ++ a0
                           ++ " for code " ++ gcode ++ ": (" ++ e ++ ")"))
    | Conv val =>
        if startswith a0 "X" then move_x val
        else if startswith a0 "Y" then move_y val
        else if startswith a0 "Z" then move_z val
        else raise (RuntimeError (line_tag ln ++ "Unknown parameter " ++ a0
                                  ++ " for code: " ++ gcode))
    end
  else
    xyz <- move_loop gcode ln args args (0, 0, 0)%float ;;
    let '(x, y, z) := xyz in
    move x y z.

(** *** The table of known commands *)

Definition notify (msg : string) : string -> nat -> list string -> M unit :=
  fun _ _ _ => emit (Print msg).

Definition no_op : string -> nat -> list string -> M unit :=
  fun _ _ _ => ret tt.

Record MachineClient : Type := { _KNOWN_COMMANDS : dict }.

Definition __init__ : MachineClient :=
  {| _KNOWN_COMMANDS := [
       ("G00", {| n_args := 3; fn := _parse_move |});
       ("G01", {| n_args := 3; fn := _parse_move |});
       ("G17", {| n_args := 0; fn := notify "Select XY plane" |});
       ("G21", {| n_args := 0; fn := notify "Set programming in inches" |});
       ("G28", {| n_args := 3; fn := fun _ _ _ => home |});
       ("G40", {| n_args := 0;
                  fn := notify "Set tool radius compensation off" |});
       ("G49", {| n_args := 0;
                  fn := notify "Cancel tool length offset compensation" |});
       ("G54", {| n_args := 0; fn := no_op |});
       ("G80", {| n_args := 0; fn := notify "Cancel canned cycle" |});
       ("G90", {| n_args := 0; fn := no_op |});
       ("G91", {| n_args := 0; fn := no_op |});
       ("G94", {| n_args := 0; fn := notify "Set feedrate in per minutes" |});
       ("M03", {| n_args := 0; fn := no_op |});
       ("M05", {| n_args := 0; fn := no_op |});
       ("M06", {| n_args := 0; fn := _parse_tool |});
       ("M09", {| n_args := 0; fn := fun _ _ _ => coolant_off |});
       ("M30", {| n_args := 0; fn := no_op |});
       ("T", {| n_args := 1; fn := _parse_tool |});
       ("S", {| n_args := 0; fn := _parse_speed |});
       ("F", {| n_args := 0; fn := _parse_feedrate |})
     ] |}.

(** *** [parse_gcode] *)

(** The key a token is looked up under: the whole token for [G] and [M], the
    first letter for [S], [T] and [F], and [None] otherwise. *)
Definition resolve_key (next_part : string) : M (option string) :=
  if startswith next_part "G" || startswith next_part "M"
  then ret (Some next_part)
  else if startswith next_part "S" || startswith next_part "T"
          || startswith next_part "F"
  then k <- str_first next_part ;; ret (Some k)
  else ret None.

(** One turn of the loop [while ii < len(parts)], from its first statement;
    the result is the next value of [ii]. *)
Definition dispatch_at (self : MachineClient) (parts : list string)
    (ln ii : nat) : M nat :=
  next_part <- index parts ii ;;
  if startswith next_part "N" then ret (ii + 1)
  else
    key <- resolve_key next_part ;;
    let unknown :=
      RuntimeError ("[Line: " ++ str_of_int ln ++ "]: Unknown code "
                    ++ next_part) in
    match key with
    | None => raise unknown
    | Some k =>
        match dict_get (_KNOWN_COMMANDS self) k with
        | None => raise unknown
        | Some cmd =>
            args <- or_raise IndexError
                      (extract_args (skipn (ii + 1) parts) (n_args cmd)) ;;
            fn cmd next_part ln args ;;;
            ret (ii + (length args + 1))
        end
    end.

(** The loop [while ii < len(parts)].  Every turn advances [ii] by one at
    least, so [len(parts)] turns are enough; [fuel] bounds their number. *)
Fixpoint dispatch_loop (fuel : nat) (self : MachineClient)
    (parts : list string) (ln ii : nat) : M unit :=
  if ii <? length parts then
    match fuel with
    | 0 => fun _ => None
    | S fuel' =>
        ii' <- dispatch_at self parts ln ii ;;
        dispatch_loop fuel' self parts ln ii'
    end
  else ret tt.

(** The body of the loop [for ln, line in enumerate(...)]. *)
Definition parse_line (self : MachineClient) (ln : nat) (line : string)
    : M unit :=
  if negb (re_match_eol _CMD_PATTERN line)
  then raise (RuntimeError (line_tag ln
                            ++ "Expected a command starting with 'N*'"))
  else
    let parts := split_space line in
    dispatch_loop (length parts) self parts ln 0.

(** [parse_gcode], from the lines that [read_gcode] returned. *)
Definition parse_gcode (self : MachineClient) (lines : list string)
    : M unit :=
  for_each (enumerate 1 (_non_empty_lines lines))
           (fun '(ln, line) => parse_line self ln line).

(** The same loop over survivors that are numbered from [start]: what is
    left of [parse_gcode] after [start - 1] lines. *)
Definition run_from (self : MachineClient) (start : nat)
    (survivors : list string) : M unit :=
  for_each (enumerate start survivors)
           (fun '(ln, line) => parse_line self ln line).

End MachineClient.

(** ** Reference builtins on plain decimal literals

    [dec_float] and [dec_int] agree with [float] and [int] on the literals
    [[+-]digits[.digits]] of at most fifteen digits, where every step below
    is exact or the single correctly rounded division; they answer
    [ValueError] on a string with a character that is no sign, digit or
    point.  Exponents, [inf], [nan], underscores and surrounding blanks are
    not covered; the instances below only use covered literals. *)

Definition float_of_digit (c : ascii) : float :=
  Nat.iter (nat_of_ascii c - 48) (fun f => f + 1)%float 0%float.

(** The digits of [s] appended to the mantissa [acc]; [n] counts them. *)
Fixpoint read_digits (s : string) (acc : float) (n : nat)
    : float * nat * string :=
  match s with
  | String c s' =>
      if is_digit c
      then read_digits s' (acc * 10 + float_of_digit c)%float (S n)
      else (acc, n, s)
  | EmptyString => (acc, n, s)
  end.

Definition pow10 (k : nat) : float :=
  Nat.iter k (fun f => f * 10)%float 1%float.

Definition strip_sign (s : string) : bool * string :=
  match s with
  | String "-" s' => (true, s')
  | String "+" s' => (false, s')
  | _ => (false, s)
  end.

Definition dec_float (s : string) : conv float :=
  let err := ConvError ("could not convert string to float: '" ++ s ++ "'") in
  let '(neg, body) := strip_sign s in
  let '(m1, n1, rest) := read_digits body 0%float 0 in
  let '(m2, n2, rest') :=
    match rest with
    | String "." frac => read_digits frac m1 n1
    | _ => (m1, n1, rest)
    end in
  match rest' with
  | EmptyString =>
      if (n2 =? 0) || (15 <? n2) then err
      else
        let v := (m2 / pow10 (n2 - n1))%float in
        Conv (if neg then (- v)%float else v)
  | _ => err
  end.

Fixpoint read_int_digits (s : string) (acc : Z) (n : nat) : option (Z * nat) :=
  match s with
  | String c s' =>
      if is_digit c
      then read_int_digits s' (10 * acc + Z.of_nat (nat_of_ascii c - 48))%Z (S n)
      else None
  | EmptyString => Some (acc, n)
  end.

Definition dec_int (s : string) : conv Z :=
  let err :=
    ConvError ("invalid literal for int() with base 10: '" ++ s ++ "'") in
  let '(neg, body) := strip_sign s in
  match read_int_digits body 0%Z 0 with
  | Some (v, S _) => Conv (if neg then (- v)%Z else v)
  | _ => err
  end.

Definition dec_builtins : builtins :=
  {| py_float := dec_float; py_int := dec_int |}.

(** ** Descriptions in the words of the specification *)

(** "A token beginning with N, G, M, S or F followed by digits". *)
Definition is_code_letter (c : ascii) : bool :=
  Ascii.eqb c "N" || Ascii.eqb c "G" || Ascii.eqb c "M" || Ascii.eqb c "S"
  || Ascii.eqb c "F".

Definition looks_like_code (tok : string) : bool :=
  match tok with
  | String c (String d _) => is_code_letter c && is_digit d
  | _ => false
  end.

(** The longest prefix of [xs] with no element satisfying [stop]. *)
Fixpoint take_until {A} (stop : A -> bool) (xs : list A) : list A :=
  match xs with
  | [] => []
  | x :: xs' => if stop x then [] else x :: take_until stop xs'
  end.

(** Every character of [s] is in the class [p]. *)
Fixpoint all_chars (p : ascii -> bool) (s : string) : bool :=
  match s with
  | EmptyString => true
  | String c s' => p c && all_chars p s'
  end.

(** The last character of [s] is in the class [p]. *)
Fixpoint last_char_in (p : ascii -> bool) (s : string) : bool :=
  match s with
  | EmptyString => false
  | String c EmptyString => p c
  | String _ s' => last_char_in p s'
  end.

(** "[(...)] spanning the entire line": what follows the opening bracket is
    any run of characters of the line closed by a bracket that ends it. *)
Fixpoint closes_comment (s : string) : bool :=
  match s with
  | EmptyString => false
  | String c EmptyString => Ascii.eqb c ")"
  | String c s' => is_dot c && closes_comment s'
  end.

Definition is_paren_comment (s : string) : bool :=
  match s with
  | String c s' => Ascii.eqb c "(" && closes_comment s'
  | EmptyString => false
  end.

(** "Letter O followed by exactly four digits, entire line". *)
Definition is_program_number_line (s : string) : bool :=
  match s with
  | String c (String d1 (String d2 (String d3 (String d4 EmptyString)))) =>
      Ascii.eqb c "O"
      && (is_digit d1 && (is_digit d2 && (is_digit d3 && is_digit d4)))
  | _ => false
  end.

(** A trimmed line the classifier keeps. *)
Definition survives (s : string) : bool :=
  negb (String.eqb s "") && negb (is_paren_comment s)
  && negb (is_program_number_line s) && negb (String.eqb s "%").

(** The classifier in the words of the specification: trim every line, keep
    the survivors in order. *)
Definition classifier_spec (lines : list string) : list string :=
  filter survives (map strip lines).

(** "N-number token, one blank, further content": the shape [_CMD_PATTERN]
    asks of a line, the letter N, one digit at least, one blank character and
    then anything up to the end of the line. *)
Definition line_number_shape (line : string) : Prop :=
  exists ds c rest,
    line = String "N" (ds ++ String c rest)
    /\ ds <> "" /\ all_chars is_digit ds = true
    /\ isspace c = true /\ all_chars is_dot rest = true.

(** "If the token starts with G or M the key is the full token; else if it
    starts with S, T or F the key is that single letter; else unresolved." *)
Definition key_of_token (tok : string) : option string :=
  match tok with
  | String c _ =>
      if Ascii.eqb c "G" || Ascii.eqb c "M" then Some tok
      else if Ascii.eqb c "S" || Ascii.eqb c "T" || Ascii.eqb c "F"
           then Some (String c "")
           else None
  | EmptyString => None
  end.

(** The module's messages. *)
Definition expected_command_msg (ln : nat) : string :=
  line_tag ln ++ "Expected a command starting with 'N*'".

Definition unknown_code_msg (ln : nat) (tok : string) : string :=
  "[Line: " ++ str_of_int ln ++ "]: Unknown code " ++ tok.

Definition unknown_parameter_msg (ln : nat) (cited gcode : string) : string :=
  line_tag ln ++ "Unknown parameter " ++ cited ++ " for code: " ++ gcode.

(** [needle in s] *)
Fixpoint contains (needle s : string) : bool :=
  String.prefix needle s
  || match s with
     | EmptyString => false
     | String _ s' => contains needle s'
     end.

(** ** Descriptions used by the properties of the whole parse *)

(** The first character of [s] is in the class [p]. *)
Definition first_char_in (p : ascii -> bool) (s : string) : bool :=
  match s with
  | EmptyString => false
  | String c _ => p c
  end.

(** The two ways a message of the module starts: [f"[Line {ln}]: "] and, for
    an unknown code, [f"[Line: {ln}]: "]. *)
Definition line_colon_tag (ln : nat) : string :=
  "[Line: " ++ str_of_int ln ++ "]: ".

Definition cites_line (ln : nat) (msg : string) : bool :=
  String.prefix (line_tag ln) msg || String.prefix (line_colon_tag ln) msg.

(** What an exception raised while the line of ordinal [ln] is parsed looks
    like: never an [IndexError]; a [RuntimeError] or a [ValueError] starts
    with the tag of the line; the failed [assert]s carry their fixed text. *)
Definition exn_ok (ln : nat) (e : exn) : Prop :=
  match e with
  | RuntimeError msg => cites_line ln msg = true
  | ValueError msg => cites_line ln msg = true
  | AssertionError _ => True
  | IndexError => False
  end.

Definition result_ok {A} (P : A -> Prop) (ln : nat) (r : exn + A) : Prop :=
  match r with
  | inl e => exn_ok ln e
  | inr a => P a
  end.

(** [m] ends, whatever was emitted before, having appended events that all
    satisfy [Q], with a result that satisfies [R]. *)
Definition ends {A} (Q : event -> Prop) (R : exn + A -> Prop) (m : M A)
    : Prop :=
  forall out, exists r evs,
    m out = Some (r, out ++ evs) /\ Forall Q evs /\ R r.

(** The events a handler of the table can emit: everything but a call of
    [coolant_on]. *)
Definition not_coolant_on (ev : event) : Prop := ev <> Call_coolant_on.

(** A handler run while the line of ordinal [ln] is parsed ends, never calls
    [coolant_on], and raises nothing but what [exn_ok] allows. *)
Definition handler_ok (ln : nat) (m : M unit) : Prop :=
  ends not_coolant_on (result_ok (fun _ => True) ln) m.

(** Every callable of a table is such a handler. *)
Definition handlers_ok (self : MachineClient) : Prop :=
  forall key cmd,
    dict_get (_KNOWN_COMMANDS self) key = Some cmd ->
    forall gcode ln args, handler_ok ln (fn cmd gcode ln args).

(** A direct [print] of a handler, as opposed to a machine action. *)
Definition is_print (ev : event) : bool :=
  match ev with
  | Print _ => true
  | _ => false
  end.

(** The letters a token that is skipped or dispatched starts with. *)
Definition dispatch_letter (c : ascii) : bool :=
  Ascii.eqb c "N" || Ascii.eqb c "G" || Ascii.eqb c "M" || Ascii.eqb c "S"
  || Ascii.eqb c "T" || Ascii.eqb c "F".

(** A computation that raises has emitted nothing. *)
Definition atomic {A} (m : M A) : Prop :=
  forall out e out', m out = Some (inl e, out') -> out' = out.

(** The keys of the table that are whole tokens. *)
Definition G_M_codes : list string :=
  ["G00"; "G01"; "G17"; "G21"; "G28"; "G40"; "G49"; "G54"; "G80"; "G90";
   "G91"; "G94"; "M03"; "M05"; "M06"; "M09"; "M30"].

(** The codes of arity 0 whose callable is a [print] or nothing. *)
Definition informational_codes : list string :=
  ["G17"; "G21"; "G40"; "G49"; "G54"; "G80"; "G90"; "G91"; "G94"; "M03";
   "M05"; "M30"].

(** The value the general branch of [_parse_move] ends with for the axis
    [letter]: that of the last argument that starts with the letter, and
    [start] when there is none. *)
Fixpoint axis_value (B : builtins) (letter : string) (args : list string)
    (start : float) : float :=
  match args with
  | [] => start
  | arg :: args' =>
      axis_value B letter args'
        (if startswith arg letter
         then match py_float B (tail_str arg) with
              | Conv v => v
              | ConvError _ => start
              end
         else start)
  end.

(** An argument of a move that the general branch accepts: it starts with X,
    Y or Z and the rest of it is a number. *)
Definition axis_argument (B : builtins) (arg : string) : bool :=
  (startswith arg "X" || startswith arg "Y" || startswith arg "Z")
  && match py_float B (tail_str arg) with
     | Conv _ => true
     | ConvError _ => false
     end.

(** * Properties *)

(** ** Strings *)

Lemma sapp_nil_r (s : string) : (s ++ "")%string = s.
Proof. induction s as [|c s IH]; simpl; [reflexivity | now rewrite IH]. Qed.

Lemma sapp_assoc (s1 s2 s3 : string) :
  ((s1 ++ s2) ++ s3)%string = (s1 ++ (s2 ++ s3))%string.
Proof. induction s1 as [|c s1 IH]; simpl; [reflexivity | now rewrite IH]. Qed.

Lemma sapp_eq_nil (s1 s2 : string) :
  (s1 ++ s2)%string = "" -> s1 = "" /\ s2 = "".
Proof. destruct s1; simpl; [auto | discriminate]. Qed.

Lemma sapp_eq_cons (s1 s2 s : string) (c : ascii) :
  (s1 ++ s2)%string = String c s ->
  (s1 = "" /\ s2 = String c s)
  \/ exists s1', s1 = String c s1' /\ s = (s1' ++ s2)%string.
Proof.
  destruct s1 as [|c1 s1]; simpl; intros H.
  - left; auto.
  - injection H as -> <-. right; eauto.
Qed.

(** ** Regular expressions: the matcher decides the language *)

Module RegexFacts.

Lemma matches_empty_inv s : ~ matches Empty s.
Proof. intros H; inversion H. Qed.

Lemma matches_eps_inv s : matches Eps s -> s = "".
Proof. intros H; inversion H; reflexivity. Qed.

Lemma matches_class_inv p s :
  matches (Class p) s -> exists c, s = String c "" /\ p c = true.
Proof. intros H; inversion H; subst; eauto. Qed.

Lemma matches_seq_inv r1 r2 s :
  matches (Seq r1 r2) s ->
  exists s1 s2, s = (s1 ++ s2)%string /\ matches r1 s1 /\ matches r2 s2.
Proof. intros H; inversion H; subst; eauto. Qed.

Lemma matches_alt_inv r1 r2 s :
  matches (Alt r1 r2) s -> matches r1 s \/ matches r2 s.
Proof. intros H; inversion H; subst; auto. Qed.

Lemma nullable_spec r : nullable r = true <-> matches r "".
Proof.
  induction r as [| |p|r1 IH1 r2 IH2|r1 IH1 r2 IH2|r IH]; simpl.
  - split; [discriminate | intros H; inversion H].
  - split; [constructor | reflexivity].
  - split; [discriminate | intros H; inversion H].
  - rewrite andb_true_iff, IH1, IH2. split.
    + intros [H1 H2]. exact (MSeq H1 H2).
    + intros H. apply matches_seq_inv in H as (s1 & s2 & E & H1 & H2).
      symmetry in E. apply sapp_eq_nil in E as [-> ->]. auto.
  - rewrite orb_true_iff, IH1, IH2. split.
    + intros [H|H]; [now apply MAltL | now apply MAltR].
    + apply matches_alt_inv.
  - split; [constructor | reflexivity].
Qed.

(** A non-empty word of a starred language starts with a non-empty word of
    the language. *)
Lemma matches_star_cons r c s :
  matches (Star r) (String c s) ->
  exists s1 s2,
    s = (s1 ++ s2)%string /\ matches r (String c s1) /\ matches (Star r) s2.
Proof.
  intros H. remember (Star r) as r' eqn:Er. remember (String c s) as w eqn:Ew.
  induction H as [| | | | | |r0 s1 s2 H1 _ H2 IH2]; try discriminate.
  injection Er as ->.
  apply sapp_eq_cons in Ew as [[-> ->] | (s1' & -> & ->)].
  - apply IH2; reflexivity.
  - eauto.
Qed.

Lemma deriv_spec c r : forall s, matches (deriv c r) s <-> matches r (String c s).
Proof.
  induction r as [| |p|r1 IH1 r2 IH2|r1 IH1 r2 IH2|r IH]; intros s; simpl.
  - split; intros H; inversion H.
  - split; intros H; inversion H.
  - destruct (p c) eqn:Ep; split; intros H.
    + apply matches_eps_inv in H as ->. now constructor.
    + inversion H; subst. constructor.
    + inversion H.
    + inversion H; subst. congruence.
  - split.
    + intros H.
      assert (Hl : matches (Seq (deriv c r1) r2) s -> matches (Seq r1 r2) (String c s)).
      { intros H'. apply matches_seq_inv in H' as (s1 & s2 & -> & H1 & H2).
        apply IH1 in H1. exact (MSeq H1 H2). }
      destruct (nullable r1) eqn:En; [|auto].
      apply matches_alt_inv in H as [H|H]; [auto|].
      apply IH2 in H. apply nullable_spec in En. exact (MSeq En H).
    + intros H. apply matches_seq_inv in H as (s1 & s2 & E & H1 & H2).
      symmetry in E. apply sapp_eq_cons in E as [[-> ->] | (s1' & -> & ->)].
      * apply nullable_spec in H1 as En. rewrite En.
        apply MAltR. now apply IH2.
      * apply IH1 in H1. pose proof (MSeq H1 H2) as H.
        destruct (nullable r1); [now apply MAltL | exact H].
  - split; intros H.
    + apply matches_alt_inv in H as [H|H];
        [apply MAltL; now apply IH1 | apply MAltR; now apply IH2].
    + apply matches_alt_inv in H as [H|H];
        [apply MAltL; now apply IH1 | apply MAltR; now apply IH2].
  - split; intros H.
    + apply matches_seq_inv in H as (s1 & s2 & -> & H1 & H2).
      apply IH in H1. exact (MStarS H1 H2).
    + apply matches_star_cons in H as (s1 & s2 & -> & H1 & H2).
      apply IH in H1. exact (MSeq H1 H2).
Qed.

(** [re_match] finds a prefix in the language. *)
Lemma re_match_spec : forall s r,
  re_match r s = true <->
  exists u v, s = (u ++ v)%string /\ matches r u.
Proof.
  induction s as [|c s IH]; intros r; simpl; rewrite orb_true_iff.
  - split.
    + intros [H|H]; [|discriminate]. exists "", "". split; [reflexivity|].
      now apply nullable_spec.
    + intros (u & v & E & H). symmetry in E. apply sapp_eq_nil in E as [-> _].
      left. now apply nullable_spec.
  - rewrite IH. split.
    + intros [H|(u & v & -> & H)].
      * exists "", (String c s). split; [reflexivity | now apply nullable_spec].
      * exists (String c u), v. split; [reflexivity | now apply deriv_spec].
    + intros (u & v & E & H). symmetry in E.
      apply sapp_eq_cons in E as [[-> ->] | (u' & -> & ->)].
      * left. now apply nullable_spec.
      * right. exists u', v. split; [reflexivity | now apply deriv_spec].
Qed.

(** [re_match_eol] finds the whole string, or the string without the newline
    that ends it, in the language. *)
Lemma re_match_eol_spec : forall s r,
  re_match_eol r s = true <->
  matches r s \/ exists u, s = (u ++ String newline "")%string /\ matches r u.
Proof.
  induction s as [|c s IH]; intros r; simpl.
  - rewrite nullable_spec. split; [auto|].
    intros [H|(u & E & _)]; [exact H|]. destruct u; discriminate.
  - rewrite orb_true_iff, !andb_true_iff, IH, nullable_spec.
    rewrite String.eqb_eq, Ascii.eqb_eq. split.
    + intros [[[H ->] ->] | [H | (u & -> & H)]].
      * right. exists "". auto.
      * left. now apply deriv_spec.
      * right. exists (String c u). split; [reflexivity | now apply deriv_spec].
    + intros [H | (u & E & H)].
      * right. left. now apply deriv_spec.
      * destruct u as [|c' u]; simpl in E.
        -- injection E as -> ->. left. auto.
        -- injection E as -> ->. right. right. exists u.
           split; [reflexivity | now apply deriv_spec].
Qed.

(** A starred class is a run of characters of the class. *)
Lemma matches_star_class p s :
  matches (Star (Class p)) s <-> all_chars p s = true.
Proof.
  split.
  - intros H. remember (Star (Class p)) as r eqn:Er.
    induction H as [| | | | | |r0 s1 s2 H1 _ H2 IH2]; try discriminate.
    + reflexivity.
    + injection Er as ->. apply matches_class_inv in H1 as (c & -> & Hc).
      simpl. rewrite Hc. now apply IH2.
  - induction s as [|c s IH]; simpl; intros H.
    + constructor.
    + apply andb_true_iff in H as [Hc Hs].
      exact (MStarS (MClass p c Hc) (IH Hs)).
Qed.

End RegexFacts.

(** ** The patterns of the module, character by character *)

Section Patterns.

Import RegexFacts.

Lemma matches_chr_inv c0 s : matches (Chr c0) s -> s = String c0 "".
Proof.
  intros H. apply matches_class_inv in H as (c & -> & Hc).
  apply Ascii.eqb_eq in Hc as ->. reflexivity.
Qed.

Lemma matches_chr c0 : matches (Chr c0) (String c0 "").
Proof. constructor. apply Ascii.eqb_refl. Qed.

(** [p+] is a non-empty run of characters of the class [p]. *)
Lemma matches_plus_class p s :
  matches (Plus (Class p)) s <-> s <> "" /\ all_chars p s = true.
Proof.
  unfold Plus. split.
  - intros H. apply matches_seq_inv in H as (s1 & s2 & -> & H1 & H2).
    apply matches_class_inv in H1 as (c & -> & Hc).
    apply matches_star_class in H2. simpl. rewrite Hc, H2.
    split; [discriminate | reflexivity].
  - intros [Hne H]. destruct s as [|c s]; [congruence|].
    simpl in H. apply andb_true_iff in H as [Hc Hs].
    apply matches_star_class in Hs.
    exact (MSeq (MClass p c Hc) Hs).
Qed.

Lemma matches_letter_digits c0 s :
  matches (Seq (Chr c0) (Plus (Class is_digit))) s <->
  exists ds, s = String c0 ds /\ ds <> "" /\ all_chars is_digit ds = true.
Proof.
  split.
  - intros H. apply matches_seq_inv in H as (s1 & s2 & -> & H1 & H2).
    apply matches_chr_inv in H1 as ->. apply matches_plus_class in H2.
    exists s2. split; [reflexivity | exact H2].
  - intros (ds & -> & H). apply matches_plus_class in H.
    exact (MSeq (matches_chr c0) H).
Qed.

(** [_CMD_START_PATTERN] accepts a token exactly when it begins with one of
    the letters N, G, M, S, F and a digit. *)
Lemma cmd_start_pattern_spec tok :
  re_match _CMD_START_PATTERN tok = looks_like_code tok.
Proof.
  apply eq_true_iff_eq. rewrite re_match_spec. split.
  - intros (u & v & -> & H). unfold _CMD_START_PATTERN in H.
    assert (E : exists c ds, u = String c ds /\ ds <> ""
                /\ all_chars is_digit ds = true /\ is_code_letter c = true).
    { repeat (apply matches_alt_inv in H as [H|H]);
        apply matches_letter_digits in H as (ds & -> & Hne & Hd);
        eexists _, ds; repeat split; try eassumption; reflexivity. }
    destruct E as (c & ds & -> & Hne & Hd & Hc).
    destruct ds as [|d ds]; [congruence|]. simpl in Hd |- *.
    apply andb_true_iff in Hd as [Hd _]. now rewrite Hc, Hd.
  - destruct tok as [|c [|d rest]]; simpl; try discriminate.
    intros H. apply andb_true_iff in H as [Hc Hd].
    exists (String c (String d "")), rest. split; [reflexivity|].
    assert (Hm : matches (Seq (Chr c) (Plus (Class is_digit)))
                         (String c (String d ""))).
    { apply matches_letter_digits. exists (String d ""). simpl.
      rewrite Hd. repeat split; discriminate. }
    unfold is_code_letter in Hc. unfold _CMD_START_PATTERN.
    repeat (apply orb_true_iff in Hc as [Hc|Hc]);
      apply Ascii.eqb_eq in Hc; subst c.
    + now apply MAltL.
    + now apply MAltR, MAltL.
    + now apply MAltR, MAltR, MAltL.
    + now apply MAltR, MAltR, MAltR, MAltL.
    + now apply MAltR, MAltR, MAltR, MAltR.
Qed.

End Patterns.

(** ** [extract_args] *)

Lemma nth_error_skipn_cons {A} (xs : list A) : forall j x,
  nth_error xs j = Some x -> skipn j xs = x :: skipn (S j) xs.
Proof.
  induction xs as [|y xs IH]; intros [|j] x H; simpl in *; try discriminate.
  - now injection H as ->.
  - now apply IH.
Qed.

Lemma take_until_ext {A} (f g : A -> bool) (xs : list A) :
  (forall x, f x = g x) -> take_until f xs = take_until g xs.
Proof.
  intros E. induction xs as [|x xs IH]; simpl; [reflexivity|].
  now rewrite E, IH.
Qed.

Lemma take_until_prefix {A} (stop : A -> bool) (xs : list A) :
  exists rest, xs = take_until stop xs ++ rest
               /\ match rest with
                  | [] => True
                  | t :: _ => stop t = true
                  end.
Proof.
  induction xs as [|x xs (rest & E & H)]; simpl.
  - exists []. auto.
  - destruct (stop x) eqn:Ex.
    + exists (x :: xs). auto.
    + exists rest. simpl. split; [now rewrite <- E | exact H].
Qed.

Lemma take_until_length {A} (stop : A -> bool) (xs : list A) :
  length (take_until stop xs) <= length xs.
Proof.
  induction xs as [|x xs IH]; simpl; [lia|].
  destruct (stop x); simpl; lia.
Qed.

Lemma take_until_none {A} (stop : A -> bool) (xs : list A) :
  Forall (fun x => stop x = false) (take_until stop xs).
Proof.
  induction xs as [|x xs IH]; simpl; [constructor|].
  destruct (stop x) eqn:Ex; constructor; assumption.
Qed.

(** The loop, from any index: it returns what it had, extended with the
    tokens it scanned before it stopped. *)
Lemma extract_loop_spec (parts : list string) : forall count j args,
  j + count <= length parts ->
  extract_loop parts j count args
  = Some (args ++ take_until (re_match _CMD_START_PATTERN)
                             (firstn count (skipn j parts))).
Proof.
  induction count as [|count IH]; intros j args Hle; simpl.
  - now rewrite app_nil_r.
  - destruct (nth_error parts j) as [p|] eqn:Ep.
    + rewrite (nth_error_skipn_cons _ _ Ep). simpl.
      destruct (re_match _CMD_START_PATTERN p).
      * now rewrite app_nil_r.
      * rewrite IH by lia. now rewrite <- app_assoc.
    + apply nth_error_None in Ep. lia.
Qed.

Lemma extract_args_spec parts max_n_args :
  extract_args parts max_n_args
  = Some (take_until looks_like_code
            (firstn (Nat.min (length parts) max_n_args) parts)).
Proof.
  unfold extract_args. rewrite extract_loop_spec by (simpl; lia). simpl.
  f_equal. apply take_until_ext, cmd_start_pattern_spec.
Qed.

(** C1: for every token list [parts] and every arity [max_n_args],
    [extract_args] returns the tokens among the first
    [min(len(parts), max_n_args)] that come before the first token matching
    [_CMD_START_PATTERN], that is the first token that begins with N, G, M, S
    or F and a digit.  The result [args] is a prefix of [parts] with no such
    token, of length [min(len(parts), max_n_args)] at most, and when it is
    shorter the token after it is such a token.  With arity 3 the tokens
    [X1 Y2 N9 G01] give [X1 Y2]. *)
Theorem C1_extract_args_prefix :
  forall (parts : list string) (max_n_args : nat),
    let max_idx := Nat.min (length parts) max_n_args in
    exists args rest,
      extract_args parts max_n_args = Some args
      /\ args = take_until (re_match _CMD_START_PATTERN) (firstn max_idx parts)
      /\ (forall tok, re_match _CMD_START_PATTERN tok = looks_like_code tok)
      /\ parts = args ++ rest
      /\ length args <= max_idx
      /\ Forall (fun tok => looks_like_code tok = false) args
      /\ (length args < max_idx ->
          exists tok rest', rest = tok :: rest' /\ looks_like_code tok = true)
      /\ extract_args ["X1"; "Y2"; "N9"; "G01"] 3 = Some ["X1"; "Y2"].
Proof.
  intros parts max_n_args max_idx.
  pose proof (extract_args_spec parts max_n_args) as E. fold max_idx in E.
  destruct (take_until_prefix looks_like_code (firstn max_idx parts))
    as (mid & Emid & Hmid).
  set (args := take_until looks_like_code (firstn max_idx parts)) in *.
  exists args, (mid ++ skipn max_idx parts).
  assert (Hlen : length (firstn max_idx parts) = max_idx).
  { rewrite length_firstn. unfold max_idx. lia. }
  repeat split.
  - exact E.
  - apply take_until_ext. intros tok. symmetry. apply cmd_start_pattern_spec.
  - apply cmd_start_pattern_spec.
  - rewrite app_assoc, <- Emid. symmetry. apply firstn_skipn.
  - apply (f_equal (@length string)) in Emid.
    rewrite length_app, Hlen in Emid. lia.
  - apply take_until_none.
  - intros Hlt. rewrite Emid, length_app in Hlen.
    destruct mid as [|tok mid']; [simpl in Hlen; lia|].
    exists tok, (mid' ++ skipn max_idx parts). split; [reflexivity | exact Hmid].
Qed.

(** C1 on the tokens [X1 Y2 N9 G01] with arity 3: the two arguments are
    fewer than the three allowed, and the token after them, [N9], looks like
    a code. *)
Lemma C1_extract_args_prefix_witness :
  exists args rest,
    extract_args ["X1"; "Y2"; "N9"; "G01"] 3 = Some args
    /\ ["X1"; "Y2"; "N9"; "G01"] = args ++ rest
    /\ exists tok rest', rest = tok :: rest' /\ looks_like_code tok = true.
Proof.
  destruct (C1_extract_args_prefix ["X1"; "Y2"; "N9"; "G01"] 3)
    as (args & rest & E & _ & _ & Eparts & _ & _ & Hnext & _).
  exists args, rest. split; [exact E|]. split; [exact Eparts|].
  apply Hnext. injection E as <-. simpl. lia.
Defined.

(** ** Computations that only append to the output *)

(** [m] ends, with a result [r] that satisfies [P] when it is a value, after
    appending the events [evs], whatever was emitted before it started. *)
Definition steady_with {A} (P : A -> Prop) (m : M A) : Prop :=
  exists r evs,
    (forall out, m out = Some (r, out ++ evs))
    /\ (forall a, r = inr a -> P a).

Definition steady {A} (m : M A) : Prop := steady_with (fun _ => True) m.

Lemma steady_with_ret {A} (P : A -> Prop) (a : A) : P a -> steady_with P (ret a).
Proof.
  intros Ha. exists (inr a), []. split.
  - intros out. unfold ret. now rewrite app_nil_r.
  - intros a' E. now injection E as <-.
Qed.

Lemma steady_with_raise {A} (P : A -> Prop) (e : exn) : steady_with P (raise e).
Proof.
  exists (inl e), []. split.
  - intros out. unfold raise. now rewrite app_nil_r.
  - discriminate.
Qed.

Lemma steady_emit (ev : event) : steady (emit ev).
Proof. exists (inr tt), [ev]. split; [reflexivity | auto]. Qed.

Lemma steady_with_bind {A B} (P : A -> Prop) (Q : B -> Prop)
    (m : M A) (k : A -> M B) :
  steady_with P m -> (forall a, P a -> steady_with Q (k a)) ->
  steady_with Q (bind m k).
Proof.
  intros (r & evs & Hm & Hr) Hk. destruct r as [e|a].
  - exists (inl e), evs. split; [|discriminate].
    intros out. unfold bind. now rewrite Hm.
  - destruct (Hk a (Hr a eq_refl)) as (r' & evs' & Hk' & Hr').
    exists r', (evs ++ evs'). split; [|exact Hr'].
    intros out. unfold bind. now rewrite Hm, Hk', app_assoc.
Qed.

Lemma steady_ret {A} (a : A) : steady (ret a).
Proof. now apply steady_with_ret. Qed.

Lemma steady_raise {A} (e : exn) : steady (@raise A e).
Proof. apply steady_with_raise. Qed.

Lemma steady_bind {A B} (m : M A) (k : A -> M B) :
  steady m -> (forall a, steady (k a)) -> steady (bind m k).
Proof.
  intros Hm Hk. apply steady_with_bind with (P := fun _ => True).
  - exact Hm.
  - intros a _. apply Hk.
Qed.

Lemma steady_index {A} (xs : list A) (i : nat) : steady (index xs i).
Proof.
  unfold index. destruct (nth_error xs i); [apply steady_ret | apply steady_raise].
Qed.

Lemma steady_or_raise {A} (e : exn) (o : option A) : steady (or_raise e o).
Proof. destruct o; [apply steady_ret | apply steady_raise]. Qed.

Lemma steady_for_each {A} (xs : list A) (body : A -> M unit) :
  (forall x, steady (body x)) -> steady (for_each xs body).
Proof.
  intros Hb. induction xs as [|x xs IH]; simpl.
  - apply steady_ret.
  - apply steady_bind; [apply Hb | intros _; exact IH].
Qed.

Create HintDb steady.
#[local] Hint Resolve steady_ret steady_raise steady_emit steady_index
  steady_or_raise : steady.

(** Splits a handler along its tests, down to its returns, raises and
    machine actions. *)
Ltac steady_step :=
  match goal with
  | |- steady (bind _ _) => apply steady_bind; [|intros]
  | |- steady (if ?b then _ else _) => destruct b
  | |- steady (match ?x with Conv _ => _ | ConvError _ => _ end) => destruct x
  | |- steady (let '(_, _) := ?p in _) => destruct p
  | |- steady _ => solve [auto with steady]
  end.

Section Steady.

Variable B : builtins.

Lemma steady_parse_tool gcode ln args : steady (_parse_tool gcode ln args).
Proof. unfold _parse_tool, change_tool. repeat steady_step. Qed.

Lemma steady_parse_feedrate gcode ln args :
  steady (_parse_feedrate B gcode ln args).
Proof. unfold _parse_feedrate, set_feed_rate. repeat steady_step. Qed.

Lemma steady_parse_speed gcode ln args :
  steady (_parse_speed B gcode ln args).
Proof. unfold _parse_speed, set_spindle_speed. repeat steady_step. Qed.

Lemma steady_move_loop gcode ln args : forall rest xyz,
  steady (move_loop B gcode ln args rest xyz).
Proof.
  induction rest as [|arg rest IH]; intros [[x y] z]; simpl.
  - apply steady_ret.
  - repeat steady_step; apply IH.
Qed.

Lemma steady_parse_move gcode ln args : steady (_parse_move B gcode ln args).
Proof.
  unfold _parse_move, move, move_x, move_y, move_z.
  destruct (_ && _); [apply steady_emit|].
  destruct (length args =? 1).
  - repeat steady_step.
  - apply steady_bind; [apply steady_move_loop|].
    intros [[x y] z]. apply steady_emit.
Qed.

(** Every callable of the table is steady. *)
Definition steady_client (self : MachineClient) : Prop :=
  forall key cmd,
    dict_get (_KNOWN_COMMANDS self) key = Some cmd ->
    forall gcode ln args, steady (fn cmd gcode ln args).

Lemma dict_get_In (d : dict) key cmd :
  dict_get d key = Some cmd -> In cmd (map snd d).
Proof.
  induction d as [|[k v] d IH]; simpl; [discriminate|].
  destruct (String.eqb k key); intros H.
  - injection H as ->. now left.
  - right. now apply IH.
Qed.

Lemma steady_init : steady_client (__init__ B).
Proof.
  intros key cmd H gcode ln args. apply dict_get_In in H. simpl in H.
  repeat (destruct H as [<-|H]; [simpl|]); try contradiction;
    try apply steady_parse_move; try apply steady_parse_tool;
    try apply steady_parse_speed; try apply steady_parse_feedrate;
    try apply steady_emit; try apply steady_ret.
Qed.

End Steady.

(** ** The dispatch loop ends *)

Section Dispatch.

Variable self : MachineClient.
Hypothesis self_steady : steady_client self.

Lemma steady_resolve_key next_part : steady (resolve_key next_part).
Proof.
  unfold resolve_key, str_first.
  destruct (_ || _); [apply steady_ret|].
  destruct (_ || _); [|apply steady_ret].
  destruct next_part; repeat steady_step.
Qed.

(** One turn of the loop moves [ii] forward. *)
Lemma steady_dispatch_at parts ln ii :
  steady_with (fun ii' => ii < ii') (dispatch_at self parts ln ii).
Proof.
  unfold dispatch_at.
  apply steady_with_bind with (P := fun _ => True); [apply steady_index|].
  intros next_part _. destruct (startswith next_part "N").
  - apply steady_with_ret. lia.
  - apply steady_with_bind with (P := fun _ => True);
      [apply steady_resolve_key|].
    intros [k|] _; [|apply steady_with_raise].
    destruct (dict_get (_KNOWN_COMMANDS self) k) as [cmd|] eqn:Ek;
      [|apply steady_with_raise].
    apply steady_with_bind with (P := fun _ => True);
      [apply steady_or_raise|].
    intros args _.
    apply steady_with_bind with (P := fun _ => True).
    + apply (self_steady _ Ek).
    + intros _ _. apply steady_with_ret. lia.
Qed.

(** With a bound of [len(parts) - ii] turns at least, the loop ends. *)
Lemma steady_dispatch_loop parts ln : forall fuel ii,
  length parts - ii <= fuel ->
  steady (dispatch_loop fuel self parts ln ii).
Proof.
  induction fuel as [|fuel IH]; intros ii Hfuel; simpl;
    destruct (ii <? length parts) eqn:Elt; try apply steady_ret.
  - apply Nat.ltb_lt in Elt. lia.
  - apply Nat.ltb_lt in Elt.
    apply steady_with_bind with (P := fun ii' => ii < ii');
      [apply steady_dispatch_at|].
    intros ii' Hii. apply IH. lia.
Qed.

Lemma steady_parse_line ln line : steady (parse_line self ln line).
Proof.
  unfold parse_line. destruct (negb _); [apply steady_raise|].
  apply steady_dispatch_loop. lia.
Qed.

Lemma steady_parse_gcode lines : steady (parse_gcode self lines).
Proof.
  unfold parse_gcode. apply steady_for_each.
  intros [ln line]. apply steady_parse_line.
Qed.

End Dispatch.

(** C9: two interpreter instances, each built by [__init__], given the same
    lines, end with the same result (normal return, or the same exception)
    after the same sequence of machine calls with the same arguments,
    whatever each of them had emitted before; in particular the parse always
    ends. *)
Theorem C9_two_runs_agree :
  forall (B : builtins) (lines : list string) (out1 out2 : list event),
    let client1 := __init__ B in
    let client2 := __init__ B in
    exists result calls,
      parse_gcode client1 lines out1 = Some (result, out1 ++ calls)
      /\ parse_gcode client2 lines out2 = Some (result, out2 ++ calls).
Proof.
  intros B lines out1 out2 client1 client2.
  destruct (steady_parse_gcode (steady_init B) lines) as (r & evs & H & _).
  exists r, evs. split; apply H.
Qed.

(** ** The line classifier *)

Section Classifier.

Import RegexFacts.

Lemma last_char_in_app p u c :
  last_char_in p (u ++ String c "") = p c.
Proof.
  induction u as [|a u IH]; simpl; [reflexivity|].
  rewrite <- IH. destruct u; reflexivity.
Qed.

Lemma last_char_in_impl (p q : ascii -> bool) s :
  (forall c, p c = true -> q c = true) ->
  last_char_in p s = true -> last_char_in q s = true.
Proof.
  intros Hpq. induction s as [|c s IH]; simpl; [discriminate|].
  destruct s; auto.
Qed.

(** What [rstrip] returns does not end with a blank. *)
Lemma rstrip_last s : last_char_in isspace (rstrip s) = false.
Proof.
  induction s as [|c s IH]; simpl; [reflexivity|].
  destruct (rstrip s) as [|c' r] eqn:Er.
  - destruct (isspace c) eqn:Ec; simpl; [reflexivity | exact Ec].
  - exact IH.
Qed.

Lemma strip_no_newline_at_end s :
  last_char_in (Ascii.eqb newline) (strip s) = false.
Proof.
  destruct (last_char_in (Ascii.eqb newline) (strip s)) eqn:E; [|reflexivity].
  apply last_char_in_impl with (q := isspace) in E.
  - unfold strip in E. now rewrite rstrip_last in E.
  - intros c Hc. apply Ascii.eqb_eq in Hc as <-. reflexivity.
Qed.

(** On a string that does not end with a newline, [$] is the end. *)
Lemma re_match_eol_matches r s :
  last_char_in (Ascii.eqb newline) s = false ->
  (re_match_eol r s = true <-> matches r s).
Proof.
  intros Hs. rewrite re_match_eol_spec. split; [|auto].
  intros [H|(u & -> & _)]; [exact H|].
  rewrite last_char_in_app, Ascii.eqb_refl in Hs. discriminate.
Qed.

Lemma closes_comment_spec s :
  closes_comment s = true <->
  exists mid, s = (mid ++ ")")%string /\ all_chars is_dot mid = true.
Proof.
  split.
  - induction s as [|c s IH]; simpl; [discriminate|].
    destruct s as [|c' s'].
    + intros H. apply Ascii.eqb_eq in H as ->. exists "". auto.
    + intros H. apply andb_true_iff in H as [Hc H].
      destruct (IH H) as (mid & E & Hmid). exists (String c mid).
      simpl. rewrite E, Hc. auto.
  - intros (mid & -> & H). induction mid as [|c mid IH]; [reflexivity|].
    simpl in H. apply andb_true_iff in H as [Hc H].
    specialize (IH H). simpl. rewrite Hc, IH. destruct mid; reflexivity.
Qed.

Lemma comment_pattern_spec s :
  matches _COMMENT_PATTERN s <-> is_paren_comment s = true.
Proof.
  unfold _COMMENT_PATTERN. split.
  - intros H. apply matches_seq_inv in H as (s1 & s2 & -> & H1 & H2).
    apply matches_chr_inv in H1 as ->.
    apply matches_seq_inv in H2 as (mid & s3 & -> & Hmid & H3).
    apply matches_chr_inv in H3 as ->. apply matches_star_class in Hmid.
    simpl. apply closes_comment_spec. eauto.
  - destruct s as [|c s]; simpl; [discriminate|]. intros H.
    apply andb_true_iff in H as [Hc H]. apply Ascii.eqb_eq in Hc as ->.
    apply closes_comment_spec in H as (mid & -> & Hmid).
    apply matches_star_class in Hmid.
    exact (MSeq (matches_chr "(") (MSeq Hmid (matches_chr ")"))).
Qed.

Lemma program_num_pattern_spec s :
  matches _PROGRAM_NUM_PATTERN s <-> is_program_number_line s = true.
Proof.
  unfold _PROGRAM_NUM_PATTERN. simpl. split.
  - intros H. apply matches_seq_inv in H as (s0 & t0 & -> & H0 & H).
    apply matches_chr_inv in H0 as ->.
    apply matches_seq_inv in H as (s1 & t1 & -> & H1 & H).
    apply matches_seq_inv in H as (s2 & t2 & -> & H2 & H).
    apply matches_seq_inv in H as (s3 & t3 & -> & H3 & H).
    apply matches_seq_inv in H as (s4 & t4 & -> & H4 & H).
    apply matches_eps_inv in H as ->.
    apply matches_class_inv in H1 as (d1 & -> & Hd1).
    apply matches_class_inv in H2 as (d2 & -> & Hd2).
    apply matches_class_inv in H3 as (d3 & -> & Hd3).
    apply matches_class_inv in H4 as (d4 & -> & Hd4).
    simpl. now rewrite Hd1, Hd2, Hd3, Hd4.
  - destruct s as [|c [|d1 [|d2 [|d3 [|d4 [|]]]]]]; simpl; try discriminate.
    intros H. apply andb_true_iff in H as [Hc H].
    apply andb_true_iff in H as [Hd1 H]. apply andb_true_iff in H as [Hd2 H].
    apply andb_true_iff in H as [Hd3 Hd4]. apply Ascii.eqb_eq in Hc as ->.
    change (String "O" (String d1 (String d2 (String d3 (String d4 "")))))
      with ("O" ++ (String d1 "" ++ (String d2 ""
                     ++ (String d3 "" ++ (String d4 "" ++ "")))))%string.
    apply MSeq; [apply matches_chr|].
    repeat (apply MSeq; [constructor; assumption|]). constructor.
Qed.

Lemma is_comment_strip raw :
  _is_comment (strip raw) = is_paren_comment (strip raw).
Proof.
  apply eq_true_iff_eq. unfold _is_comment.
  rewrite re_match_eol_matches by apply strip_no_newline_at_end.
  apply comment_pattern_spec.
Qed.

Lemma is_program_number_strip raw :
  _is_program_number (strip raw) = is_program_number_line (strip raw).
Proof.
  apply eq_true_iff_eq. unfold _is_program_number.
  rewrite re_match_eol_matches by apply strip_no_newline_at_end.
  apply program_num_pattern_spec.
Qed.

Lemma non_empty_lines_cons raw rest :
  _non_empty_lines (raw :: rest)
  = if survives (strip raw) then strip raw :: _non_empty_lines rest
    else _non_empty_lines rest.
Proof.
  simpl. rewrite is_comment_strip, is_program_number_strip. unfold survives.
  destruct (strip raw); reflexivity.
Qed.

Lemma non_empty_lines_spec lines :
  _non_empty_lines lines = classifier_spec lines.
Proof.
  unfold classifier_spec. induction lines as [|raw rest IH].
  - reflexivity.
  - rewrite non_empty_lines_cons, IH. reflexivity.
Qed.

Lemma non_empty_lines_app xs ys :
  _non_empty_lines (xs ++ ys) = _non_empty_lines xs ++ _non_empty_lines ys.
Proof.
  rewrite !non_empty_lines_spec. unfold classifier_spec.
  now rewrite map_app, filter_app.
Qed.

Lemma non_empty_lines_skipped junk :
  Forall (fun raw => survives (strip raw) = false) junk ->
  _non_empty_lines junk = [].
Proof.
  induction 1 as [|raw junk Hraw _ IH]; [reflexivity|].
  now rewrite non_empty_lines_cons, Hraw.
Qed.

End Classifier.

(** ** [enumerate] *)

Lemma enumerate_nth {A} (xs : list A) : forall start i x,
  nth_error xs i = Some x ->
  nth_error (enumerate start xs) i = Some (start + i, x).
Proof.
  induction xs as [|y xs IH]; intros start [|i] x H; simpl in *;
    try discriminate.
  - injection H as ->. now rewrite Nat.add_0_r.
  - rewrite (IH (S start) i x H). f_equal. f_equal. lia.
Qed.

Lemma enumerate_snd {A} (xs : list A) : forall start,
  map snd (enumerate start xs) = xs.
Proof.
  induction xs as [|y xs IH]; intros start; simpl; [reflexivity|].
  now rewrite IH.
Qed.

Lemma enumerate_fst {A} (xs : list A) : forall start,
  map fst (enumerate start xs) = seq start (length xs).
Proof.
  induction xs as [|y xs IH]; intros start; simpl; [reflexivity|].
  now rewrite IH.
Qed.

Lemma enumerate_app {A} (xs ys : list A) : forall start,
  enumerate start (xs ++ ys)
  = enumerate start xs ++ enumerate (start + length xs) ys.
Proof.
  induction xs as [|x xs IH]; intros start; simpl.
  - now rewrite Nat.add_0_r.
  - rewrite IH. do 3 f_equal. lia.
Qed.

(** C7: for every sequence of raw lines, the classifier yields the trimmed
    lines that are not empty, not a bracketed comment over the whole line,
    not the letter O with exactly four digits and not [%], in their order;
    [enumerate(..., start=1)] pairs the survivor at position [i] (from 0)
    with the ordinal [i + 1], so the ordinals are 1, 2, ... over the
    survivors only, and lines that are filtered out, wherever they stand,
    change neither the survivors nor their ordinals.  These pairs are what
    [parse_gcode] iterates over. *)
Theorem C7_line_classifier :
  forall lines : list string,
    let numbered := enumerate 1 (_non_empty_lines lines) in
    _non_empty_lines lines = filter survives (map strip lines)
    /\ map snd numbered = _non_empty_lines lines
    /\ map fst numbered = seq 1 (length (_non_empty_lines lines))
    /\ (forall i line,
          nth_error (_non_empty_lines lines) i = Some line ->
          nth_error numbered i = Some (i + 1, line))
    /\ (forall pre junk post,
          lines = pre ++ junk ++ post ->
          Forall (fun raw => survives (strip raw) = false) junk ->
          numbered = enumerate 1 (_non_empty_lines (pre ++ post)))
    /\ (forall self,
          parse_gcode self lines
          = for_each numbered (fun '(ln, line) => parse_line self ln line)).
Proof.
  intros lines numbered. unfold numbered. repeat split.
  - apply non_empty_lines_spec.
  - apply enumerate_snd.
  - apply enumerate_fst.
  - intros i line H. rewrite (enumerate_nth _ 1 _ H). do 2 f_equal. lia.
  - intros pre junk post -> Hjunk.
    rewrite !non_empty_lines_app, (non_empty_lines_skipped Hjunk).
    reflexivity.
Qed.

(** C7 on six raw lines with two survivors: the block delimiter, the
    comment, the program number and the blank line between and around them
    leave the ordinals 1 and 2. *)
Lemma C7_line_classifier_witness :
  enumerate 1 (_non_empty_lines
                 ["%"; "  N1 G90 "; "(c)"; "O1234"; "   "; "N2 G28"])
  = enumerate 1 (_non_empty_lines (["%"; "  N1 G90 "] ++ ["N2 G28"])).
Proof.
  destruct (C7_line_classifier
              ["%"; "  N1 G90 "; "(c)"; "O1234"; "   "; "N2 G28"])
    as (_ & _ & _ & _ & Hskip & _).
  apply (Hskip ["%"; "  N1 G90 "] ["(c)"; "O1234"; "   "] ["N2 G28"] eq_refl).
  repeat constructor.
Defined.

(** ** One turn of the dispatch loop *)

Lemma bind_value {A B} (m : M A) (k : A -> M B) out a out' :
  m out = Some (inr a, out') -> bind m k out = k a out'.
Proof. intros H. unfold bind. now rewrite H. Qed.

Lemma bind_exn {A B} (m : M A) (k : A -> M B) out e out' :
  m out = Some (inl e, out') -> bind m k out = Some (inl e, out').
Proof. intros H. unfold bind. now rewrite H. Qed.

Lemma bind_ret {A B} (a : A) (k : A -> M B) out :
  bind (ret a) k out = k a out.
Proof. reflexivity. Qed.

Lemma startswith_char s c :
  startswith s (String c "")
  = match s with
    | String c' _ => Ascii.eqb c c'
    | EmptyString => false
    end.
Proof.
  unfold startswith. destruct s as [|c' s']; simpl; [reflexivity|].
  destruct (ascii_dec c c') as [->|Hne]; symmetry.
  - destruct s'; apply Ascii.eqb_refl.
  - now apply Ascii.eqb_neq.
Qed.

(** The key is computed without an exception. *)
Lemma resolve_key_pure tok : resolve_key tok = ret (key_of_token tok).
Proof.
  unfold resolve_key, key_of_token. rewrite !startswith_char.
  destruct tok as [|c tok']; [reflexivity|].
  rewrite !(Ascii.eqb_sym _ c).
  destruct (_ || _); [reflexivity|].
  destruct (_ || _); reflexivity.
Qed.

Section Turns.

Variable self : MachineClient.
Variables (parts : list string) (ln : nat).

Lemma dispatch_loop_done fuel ii out :
  length parts <= ii ->
  dispatch_loop fuel self parts ln ii out = Some (inr tt, out).
Proof.
  intros H. apply Nat.ltb_ge in H.
  destruct fuel; simpl; now rewrite H.
Qed.

Lemma dispatch_loop_turn fuel ii out ii' out' :
  ii < length parts ->
  dispatch_at self parts ln ii out = Some (inr ii', out') ->
  dispatch_loop (S fuel) self parts ln ii out
  = dispatch_loop fuel self parts ln ii' out'.
Proof.
  intros Hlt H. apply Nat.ltb_lt in Hlt. simpl. rewrite Hlt.
  now apply bind_value.
Qed.

Lemma dispatch_loop_raise fuel ii out e out' :
  ii < length parts ->
  dispatch_at self parts ln ii out = Some (inl e, out') ->
  dispatch_loop (S fuel) self parts ln ii out = Some (inl e, out').
Proof.
  intros Hlt H. apply Nat.ltb_lt in Hlt. simpl. rewrite Hlt.
  now apply bind_exn.
Qed.

(** A token that starts with N is skipped. *)
Lemma dispatch_at_line_number ii tok out :
  nth_error parts ii = Some tok ->
  startswith tok "N" = true ->
  dispatch_at self parts ln ii out = Some (inr (ii + 1), out).
Proof.
  intros Htok HN. unfold dispatch_at, index. rewrite Htok.
  unfold bind, ret. now rewrite HN.
Qed.

(** A token with a key of the table: its callable is run on the arguments
    extracted after it, and [ii] moves past the token and the arguments. *)
Lemma dispatch_at_command ii tok key cmd args out :
  nth_error parts ii = Some tok ->
  startswith tok "N" = false ->
  key_of_token tok = Some key ->
  dict_get (_KNOWN_COMMANDS self) key = Some cmd ->
  extract_args (skipn (ii + 1) parts) (n_args cmd) = Some args ->
  dispatch_at self parts ln ii out
  = bind (fn cmd tok ln args) (fun _ => ret (ii + (length args + 1))) out.
Proof.
  intros Htok HN Hkey Hcmd Hargs. unfold dispatch_at, index. rewrite Htok.
  rewrite bind_ret, HN, resolve_key_pure, bind_ret.
  rewrite Hkey, Hcmd, Hargs. reflexivity.
Qed.

(** A token with no key, or with a key that the table does not have. *)
Lemma dispatch_at_unknown ii tok out :
  nth_error parts ii = Some tok ->
  startswith tok "N" = false ->
  match key_of_token tok with
  | Some key => dict_get (_KNOWN_COMMANDS self) key = None
  | None => True
  end ->
  dispatch_at self parts ln ii out
  = Some (inl (RuntimeError (unknown_code_msg ln tok)), out).
Proof.
  intros Htok HN Hkey. unfold dispatch_at, index. rewrite Htok.
  rewrite bind_ret, HN, resolve_key_pure, bind_ret.
  destruct (key_of_token tok) as [key|]; [rewrite Hkey|]; reflexivity.
Qed.

End Turns.

(** ** The loop over the lines *)

Section Lines.

Variable self : MachineClient.

Lemma for_each_app {A} (xs ys : list A) (body : A -> M unit) out :
  for_each (xs ++ ys) body out
  = bind (for_each xs body) (fun _ => for_each ys body) out.
Proof.
  revert out. induction xs as [|x xs IH]; intros out; simpl.
  - reflexivity.
  - unfold bind. destruct (body x out) as [[[e|[]] out']|];
      try reflexivity.
    exact (IH out').
Qed.

Lemma parse_gcode_app pre post out :
  parse_gcode self (pre ++ post) out
  = bind (parse_gcode self pre)
         (fun _ => run_from self (1 + length (_non_empty_lines pre))
                            (_non_empty_lines post)) out.
Proof.
  unfold parse_gcode, run_from.
  now rewrite non_empty_lines_app, enumerate_app, for_each_app.
Qed.

Lemma run_from_cons start raw rest out :
  survives (strip raw) = true ->
  run_from self start (_non_empty_lines (raw :: rest)) out
  = bind (parse_line self start (strip raw))
         (fun _ => run_from self (S start) (_non_empty_lines rest)) out.
Proof. intros H. now rewrite non_empty_lines_cons, H. Qed.

(** A single surviving line is parsed as line 1. *)
Lemma parse_gcode_single raw out :
  survives (strip raw) = true ->
  parse_gcode self [raw] out
  = bind (parse_line self 1 (strip raw)) (fun _ => ret tt) out.
Proof. intros H. apply (run_from_cons 1 raw [] out H). Qed.

Lemma parse_line_shape_ok ln line :
  re_match_eol _CMD_PATTERN line = true ->
  parse_line self ln line
  = dispatch_loop (length (split_space line)) self (split_space line) ln 0.
Proof. intros H. unfold parse_line. rewrite H. reflexivity. Qed.

Lemma parse_line_shape_bad ln line out :
  re_match_eol _CMD_PATTERN line = false ->
  parse_line self ln line out
  = Some (inl (RuntimeError (expected_command_msg ln)), out).
Proof. intros H. unfold parse_line. rewrite H. reflexivity. Qed.

End Lines.
(** ** Single lines *)

(** C5: on the line [N4 M06 T12] the tool-change action is called twice,
    first with the name ["06"], which [_parse_tool] cuts out of the code
    [M06] itself, and then with the name ["12"] of the token [T12]. *)
Theorem C5_tool_change_calls :
  forall B : builtins,
    parse_gcode (__init__ B) ["N4 M06 T12"] []
    = Some (inr tt, [Call_change_tool "06"; Call_change_tool "12"]).
Proof. intros B. reflexivity. Qed.


(** Runs one turn of the loop on a closed token list: a skipped line-number
    token, or a command whose callable is described by [H]. *)
Ltac turn_skip :=
  erewrite dispatch_loop_turn;
  [ | simpl; lia | eapply dispatch_at_line_number; reflexivity ].

Ltac turn_command H :=
  erewrite dispatch_loop_turn;
  [ | simpl; lia
    | erewrite dispatch_at_command; [ | reflexivity .. ];
      etransitivity; [ apply bind_value; apply H | reflexivity ] ].

Ltac turn_command_raises H :=
  erewrite dispatch_loop_raise;
  [ | simpl; lia
    | erewrite dispatch_at_command; [ | reflexivity .. ];
      apply bind_exn; apply H ].

(** C6: on the line [N2 G00 X10.000 Y5.000], with [float("10.000")] being
    10.0 and [float("5.000")] being 5.0, the parse makes exactly one machine
    call, [move(10.0, 5.0, 0.0)]: two arguments take the general branch, and
    the axis Z, which is absent, keeps its initial 0.0. *)
Theorem C6_move_two_axes :
  forall B : builtins,
    py_float B "10.000" = Conv 10%float ->
    py_float B "5.000" = Conv 5%float ->
    parse_gcode (__init__ B) ["N2 G00 X10.000 Y5.000"] []
    = Some (inr tt, [Call_move 10 5 0]).
Proof.
  intros B H10 H5.
  assert (Hmove : forall out,
             _parse_move B "G00" 1 ["X10.000"; "Y5.000"] out
             = Some (inr tt, out ++ [Call_move 10 5 0])).
  { intros out. unfold _parse_move, bind. simpl. unfold bind.
    rewrite H10, H5. reflexivity. }
  rewrite parse_gcode_single by reflexivity.
  erewrite bind_value; [reflexivity|].
  rewrite parse_line_shape_ok by reflexivity.
  change (split_space (strip "N2 G00 X10.000 Y5.000"))
    with ["N2"; "G00"; "X10.000"; "Y5.000"].
  simpl length.
  turn_skip. turn_command Hmove.
  apply dispatch_loop_done. simpl. lia.
Qed.

(** C6 with the reference builtins, which read [10.000] as 10.0 and [5.000]
    as 5.0. *)
Lemma C6_move_two_axes_witness :
  parse_gcode (__init__ dec_builtins) ["N2 G00 X10.000 Y5.000"] []
  = Some (inr tt, [Call_move 10 5 0]).
Proof. apply (C6_move_two_axes dec_builtins); reflexivity. Defined.

(** C10: [_parse_move] called for [G01] with no argument neither prints the
    rapid-positioning notice nor raises: it calls [move(0.0, 0.0, 0.0)].  The
    notice is what the same call for [G00] does.  So the lines [N1 G01] and
    [N1 G01 M09], where the extracted arguments of [G01] are none, start with
    that [move]. *)
Theorem C10_linear_move_without_arguments :
  forall (B : builtins) (ln : nat) (out : list event),
    _parse_move B "G01" ln [] out = Some (inr tt, out ++ [Call_move 0 0 0])
    /\ _parse_move B "G00" ln [] out
       = Some (inr tt, out ++ [Print "Set rapid positioning"])
    /\ parse_gcode (__init__ B) ["N1 G01"] []
       = Some (inr tt, [Call_move 0 0 0])
    /\ parse_gcode (__init__ B) ["N1 G01 M09"] []
       = Some (inr tt, [Call_move 0 0 0; Call_coolant_off]).
Proof. intros B ln out. repeat split. Qed.

(** ** The home command *)

Lemma home_entry (B : builtins) :
  dict_get (_KNOWN_COMMANDS (__init__ B)) "G28"
  = Some {| n_args := 3; fn := fun _ _ _ => home |}.
Proof. reflexivity. Qed.

(** C8, as the code has it: the entry of [G28] allows three arguments.  When
    [G28] is dispatched, the tokens among the next three that come before
    the first token that looks like a code are consumed as its arguments and
    ignored, [home()] is called with no parameter, and [ii] moves past them. *)
Theorem C8_home_takes_up_to_three_arguments :
  forall (B : builtins) (parts : list string) (ln ii : nat)
         (out : list event),
    nth_error parts ii = Some "G28" ->
    let rest := skipn (ii + 1) parts in
    let args :=
      take_until looks_like_code (firstn (Nat.min (length rest) 3) rest) in
    extract_args rest 3 = Some args
    /\ length args <= 3
    /\ dispatch_at (__init__ B) parts ln ii out
       = Some (inr (ii + (length args + 1)), out ++ [Call_home]).
Proof.
  intros B parts ln ii out Htok rest args.
  assert (Hargs : extract_args rest 3 = Some args) by apply extract_args_spec.
  repeat split.
  - exact Hargs.
  - unfold args. rewrite take_until_length, length_firstn. lia.
  - erewrite dispatch_at_command;
      [ | exact Htok | reflexivity | reflexivity
        | apply home_entry | exact Hargs ].
    reflexivity.
Qed.

(** C8 on the tokens [N1 G28 X0 Y0 Z0], with [G28] at index 1. *)
Lemma C8_home_takes_up_to_three_arguments_witness :
  extract_args ["X0"; "Y0"; "Z0"] 3 = Some ["X0"; "Y0"; "Z0"]
  /\ length ["X0"; "Y0"; "Z0"] <= 3
  /\ dispatch_at (__init__ dec_builtins) ["N1"; "G28"; "X0"; "Y0"; "Z0"]
                 1 1 []
     = Some (inr 5, [Call_home]).
Proof.
  exact (@C8_home_takes_up_to_three_arguments
           dec_builtins ["N1"; "G28"; "X0"; "Y0"; "Z0"] 1 1 [] eq_refl).
Defined.

(** C8, as it is written, fails on the line [N1 G28 X0 Y0 Z0]: the three
    tokens after [G28] are consumed as its arguments, so [ii] moves from 1 to
    5 and the line is parsed with the single call [home()]; were no token
    consumed, [X0] would be dispatched next, and it is an unknown code, as on
    the line [N1 X0]. *)
Lemma C8_home_consumes_tokens :
  dispatch_at (__init__ dec_builtins) ["N1"; "G28"; "X0"; "Y0"; "Z0"] 1 1 []
  = Some (inr 5, [Call_home])
  /\ parse_gcode (__init__ dec_builtins) ["N1 G28 X0 Y0 Z0"] []
     = Some (inr tt, [Call_home])
  /\ parse_gcode (__init__ dec_builtins) ["N1 X0"] []
     = Some (inl (RuntimeError "[Line: 1]: Unknown code X0"), [])
  /\ ~ (forall parts ln ii out,
          nth_error parts ii = Some "G28" ->
          exists out',
            dispatch_at (__init__ dec_builtins) parts ln ii out
            = Some (inr (ii + 1), out')).
Proof.
  repeat split.
  intros H.
  destruct (H ["N1"; "G28"; "X0"; "Y0"; "Z0"] 1 1 [] eq_refl) as (out' & E).
  discriminate E.
Qed.

(** ** The shape of a command line *)

Section LineShape.

Import RegexFacts.

Lemma cmd_pattern_spec s : matches _CMD_PATTERN s <-> line_number_shape s.
Proof.
  unfold _CMD_PATTERN, line_number_shape. split.
  - intros H. apply matches_seq_inv in H as (s0 & t0 & -> & H0 & H).
    apply matches_chr_inv in H0 as ->.
    apply matches_seq_inv in H as (ds & t1 & -> & Hds & H).
    apply matches_plus_class in Hds as [Hne Hds].
    apply matches_seq_inv in H as (s2 & rest & -> & Hc & Hrest).
    apply matches_class_inv in Hc as (c & -> & Hc).
    apply matches_star_class in Hrest.
    exists ds, c, rest. auto.
  - intros (ds & c & rest & -> & Hne & Hds & Hc & Hrest).
    apply matches_star_class in Hrest.
    change (String "N" (ds ++ String c rest))
      with ("N" ++ (ds ++ (String c "" ++ rest)))%string.
    apply MSeq; [apply matches_chr|].
    apply MSeq; [now apply matches_plus_class|].
    apply MSeq; [now constructor | exact Hrest].
Qed.

(** Without the letter N in front, a line does not pass. *)
Lemma cmd_pattern_needs_N line :
  startswith line "N" = false -> re_match_eol _CMD_PATTERN line = false.
Proof.
  intros HN. destruct (re_match_eol _CMD_PATTERN line) eqn:E; [|reflexivity].
  apply re_match_eol_spec in E.
  assert (H : exists s, line = String "N" s).
  { destruct E as [H | (u & -> & H)];
      apply cmd_pattern_spec in H as (ds & c & rest & -> & _); simpl; eauto. }
  destruct H as (s & ->). rewrite startswith_char in HN. discriminate HN.
Qed.

Lemma cmd_pattern_strip raw :
  re_match_eol _CMD_PATTERN (strip raw) = true
  <-> line_number_shape (strip raw).
Proof.
  rewrite re_match_eol_matches by apply strip_no_newline_at_end.
  apply cmd_pattern_spec.
Qed.

End LineShape.

(** C4, as the code has it: the N-number is not optional.  A surviving line
    passes the check exactly when it is the letter N, one digit at least, one
    blank character and then anything; a line that does not start with N
    fails it.  After lines [pre] that were parsed without exception, a
    surviving line that fails the check ends the parse with the
    [RuntimeError] "Expected a command starting with 'N*'" that cites its
    ordinal among the survivors, before any of its tokens is looked at (no
    event is added); a line that passes is split at the spaces and handed to
    the dispatch loop. *)
Theorem C4_line_number_is_required :
  forall (self : MachineClient) (pre : list string) (raw : string)
         (post : list string) (out out' : list event),
    parse_gcode self pre out = Some (inr tt, out') ->
    survives (strip raw) = true ->
    let line := strip raw in
    let ln := 1 + length (_non_empty_lines pre) in
    (re_match_eol _CMD_PATTERN line = true <-> line_number_shape line)
    /\ (startswith line "N" = false ->
        re_match_eol _CMD_PATTERN line = false)
    /\ (re_match_eol _CMD_PATTERN line = false ->
        parse_gcode self (pre ++ raw :: post) out
        = Some (inl (RuntimeError (expected_command_msg ln)), out'))
    /\ (re_match_eol _CMD_PATTERN line = true ->
        parse_gcode self (pre ++ raw :: post) out
        = bind (dispatch_loop (length (split_space line)) self
                              (split_space line) ln 0)
               (fun _ => run_from self (S ln) (_non_empty_lines post)) out').
Proof.
  intros self pre raw post out out' Hpre Hraw line ln.
  assert (Hrun : parse_gcode self (pre ++ raw :: post) out
                 = bind (parse_line self ln line)
                        (fun _ => run_from self (S ln) (_non_empty_lines post))
                        out').
  { rewrite parse_gcode_app. erewrite bind_value; [|exact Hpre].
    now apply run_from_cons. }
  repeat split.
  - apply cmd_pattern_strip.
  - apply cmd_pattern_strip.
  - apply cmd_pattern_needs_N.
  - intros Hbad. rewrite Hrun. apply bind_exn.
    now apply parse_line_shape_bad.
  - intros Hok. rewrite Hrun. now rewrite parse_line_shape_ok.
Qed.

(** C4 on the single line [G01 X1], which survives and fails the check. *)
Lemma C4_line_number_is_required_witness :
  parse_gcode (__init__ dec_builtins) ([] ++ ["G01 X1"]) []
  = Some (inl (RuntimeError (expected_command_msg 1)), []).
Proof.
  apply (@C4_line_number_is_required
           (__init__ dec_builtins) [] "G01 X1" [] [] [] eq_refl eq_refl).
  reflexivity.
Defined.

(** C4, as it is written, fails on the line [G01 X1]: it has no N-number
    and has content separated by a space, and the check rejects it. *)
Lemma C4_line_without_number_is_rejected :
  survives (strip "G01 X1") = true
  /\ re_match_eol _CMD_PATTERN "G01 X1" = false
  /\ parse_gcode (__init__ dec_builtins) ["G01 X1"] []
     = Some (inl (RuntimeError
                    "[Line 1]: Expected a command starting with 'N*'"), []).
Proof. repeat split. Qed.

(** C3, as the code has it: the line [N7 ZZZ] passes the line-shape check
    (N, a digit, a blank, content).  Its token [N7] is skipped and its token
    [ZZZ] has no key, so the parse ends with the unknown-code [RuntimeError],
    which cites the token [ZZZ] and the ordinal of the line among the
    survivors: 1 when it is the only line. *)
Theorem C3_unknown_code_on_shaped_line :
  forall (B : builtins),
    re_match_eol _CMD_PATTERN "N7 ZZZ" = true
    /\ parse_gcode (__init__ B) ["N7 ZZZ"] []
       = Some (inl (RuntimeError "[Line: 1]: Unknown code ZZZ"), [])
    /\ (forall ln out,
          parse_line (__init__ B) ln "N7 ZZZ" out
          = Some (inl (RuntimeError (unknown_code_msg ln "ZZZ")), out)).
Proof.
  intros B. split; [reflexivity|]. split; [reflexivity|].
  intros ln out. rewrite parse_line_shape_ok by reflexivity.
  change (split_space "N7 ZZZ") with ["N7"; "ZZZ"]. simpl length.
  turn_skip.
  erewrite dispatch_loop_raise; [reflexivity | simpl; lia |].
  eapply dispatch_at_unknown; reflexivity.
Qed.

(** C3, as it is written, fails: on the single line [N7 ZZZ] the error is the
    unknown-code one, it cites line 1, and it is not the line-shape error
    of any line number. *)
Lemma C3_not_a_line_shape_error :
  parse_gcode (__init__ dec_builtins) ["N7 ZZZ"] []
  = Some (inl (RuntimeError "[Line: 1]: Unknown code ZZZ"), [])
  /\ (forall ln,
        parse_gcode (__init__ dec_builtins) ["N7 ZZZ"] []
        <> Some (inl (RuntimeError (expected_command_msg ln)), []))
  /\ contains "7" "[Line: 1]: Unknown code ZZZ" = false.
Proof.
  repeat split. intros ln H.
  change (parse_gcode (__init__ dec_builtins) ["N7 ZZZ"] [])
    with (Some (@inl exn unit (RuntimeError "[Line: 1]: Unknown code ZZZ"),
                @nil event)) in H.
  injection H as H. unfold expected_command_msg, line_tag in H. simpl in H.
  discriminate H.
Qed.

(** ** A parameter that is no axis *)

Section UnknownParameter.

Variable B : builtins.
Variables v1 v2 : float.
Hypothesis float_1 : py_float B "1" = Conv v1.
Hypothesis float_2 : py_float B "2" = Conv v2.

(** The general branch of [_parse_move] on [X1 Y2 Q3]: the two axes are
    read, then [Q3] raises. The message is built from [args[0]]. *)
Lemma parse_move_unknown_parameter ln out :
  _parse_move B "G01" ln ["X1"; "Y2"; "Q3"] out
  = Some (inl (RuntimeError (unknown_parameter_msg ln "X1" "G01")), out).
Proof.
  unfold _parse_move, bind. simpl. unfold bind.
  rewrite float_1, float_2. reflexivity.
Qed.

Lemma parse_line_unknown_parameter ln out :
  parse_line (__init__ B) ln "N6 G01 X1 Y2 Q3" out
  = Some (inl (RuntimeError (unknown_parameter_msg ln "X1" "G01")), out).
Proof.
  rewrite parse_line_shape_ok by reflexivity.
  change (split_space "N6 G01 X1 Y2 Q3") with ["N6"; "G01"; "X1"; "Y2"; "Q3"].
  simpl length. turn_skip.
  turn_command_raises parse_move_unknown_parameter. reflexivity.
Qed.

End UnknownParameter.

(** C2, as the code has it: with [float("1")] and [float("2")] being numbers,
    the line [N6 G01 X1 Y2 Q3] ends the parse, before any machine call, with
    the [RuntimeError] "Unknown parameter ... for code: G01", which cites the
    ordinal of the line among the survivors: 1 when it is the only line, and
    [ln] when it is the line of ordinal [ln]. *)
Theorem C2_unknown_parameter_error :
  forall (B : builtins) (v1 v2 : float),
    py_float B "1" = Conv v1 ->
    py_float B "2" = Conv v2 ->
    exists cited,
      parse_gcode (__init__ B) ["N6 G01 X1 Y2 Q3"] []
      = Some (inl (RuntimeError (unknown_parameter_msg 1 cited "G01")), [])
      /\ (forall ln out,
            parse_line (__init__ B) ln "N6 G01 X1 Y2 Q3" out
            = Some (inl (RuntimeError (unknown_parameter_msg ln cited "G01")),
                    out))
      /\ (forall pre out out',
            parse_gcode (__init__ B) pre out = Some (inr tt, out') ->
            parse_gcode (__init__ B) (pre ++ ["N6 G01 X1 Y2 Q3"]) out
            = Some (inl (RuntimeError
                           (unknown_parameter_msg
                              (1 + length (_non_empty_lines pre))
                              cited "G01")),
                    out')).
Proof.
  intros B v1 v2 H1 H2. exists "X1". split; [|split].
  - rewrite parse_gcode_single by reflexivity.
    apply bind_exn. apply (parse_line_unknown_parameter B H1 H2).
  - apply (parse_line_unknown_parameter B H1 H2).
  - intros pre out out' Hpre.
    rewrite parse_gcode_app. erewrite bind_value; [|exact Hpre].
    rewrite run_from_cons by reflexivity.
    apply bind_exn. exact (parse_line_unknown_parameter B H1 H2 _ _).
Qed.

(** C2 with the reference builtins, where [float("1")] is 1.0 and
    [float("2")] is 2.0; after the five lines [N1 G90] ... [N5 G90] the line
    has the ordinal 6. *)
Lemma C2_unknown_parameter_error_witness :
  exists cited,
    parse_gcode (__init__ dec_builtins) ["N6 G01 X1 Y2 Q3"] []
    = Some (inl (RuntimeError (unknown_parameter_msg 1 cited "G01")), [])
    /\ parse_gcode (__init__ dec_builtins)
         (["N1 G90"; "N2 G90"; "N3 G90"; "N4 G90"; "N5 G90"]
          ++ ["N6 G01 X1 Y2 Q3"]) []
       = Some (inl (RuntimeError (unknown_parameter_msg 6 cited "G01")), []).
Proof.
  destruct (@C2_unknown_parameter_error dec_builtins 1%float 2%float
              eq_refl eq_refl) as (cited & Hone & _ & Hafter).
  exists cited. split; [exact Hone|].
  exact (Hafter ["N1 G90"; "N2 G90"; "N3 G90"; "N4 G90"; "N5 G90"] [] []
                eq_refl).
Defined.

(** C2, as it is written, fails: on the single line [N6 G01 X1 Y2 Q3] the
    message reads "[Line 1]: Unknown parameter X1 for code: G01"; neither
    the token [Q3] nor the number 6 occurs in it. *)
Lemma C2_message_cites_neither_Q3_nor_6 :
  parse_gcode (__init__ dec_builtins) ["N6 G01 X1 Y2 Q3"] []
  = Some (inl (RuntimeError "[Line 1]: Unknown parameter X1 for code: G01"),
          [])
  /\ contains "Q3" "[Line 1]: Unknown parameter X1 for code: G01" = false
  /\ contains "6" "[Line 1]: Unknown parameter X1 for code: G01" = false.
Proof. repeat split. Qed.

(** * Further properties of the parse *)

(** ** What every run emits and how it can end *)

Lemma prefix_app (a b : string) : String.prefix a (a ++ b) = true.
Proof.
  induction a as [|c a IH]; simpl.
  - destruct b; reflexivity.
  - destruct (ascii_dec c c) as [_|Hne]; [exact IH | congruence].
Qed.

Lemma cites_line_tag ln rest : cites_line ln (line_tag ln ++ rest) = true.
Proof. unfold cites_line. now rewrite prefix_app. Qed.

Lemma cites_line_unknown_code ln tok :
  cites_line ln (unknown_code_msg ln tok) = true.
Proof.
  unfold cites_line.
  replace (unknown_code_msg ln tok)
    with (line_colon_tag ln ++ ("Unknown code " ++ tok))%string.
  - rewrite prefix_app. apply orb_true_r.
  - unfold line_colon_tag, unknown_code_msg. simpl. f_equal.
    now rewrite sapp_assoc.
Qed.

Section Ends.

Context {A : Type} (Q : event -> Prop).

Lemma ends_ret (R : exn + A -> Prop) (a : A) : R (inr a) -> ends Q R (ret a).
Proof.
  intros Ha out. exists (inr a), []. unfold ret. rewrite app_nil_r. auto.
Qed.

Lemma ends_raise (R : exn + A -> Prop) (e : exn) :
  R (inl e) -> ends Q R (raise e).
Proof.
  intros He out. exists (inl e), []. unfold raise. rewrite app_nil_r. auto.
Qed.

Lemma ends_bind_ret {X} (R : exn + A -> Prop) (x : X) (k : X -> M A) :
  ends Q R (k x) -> ends Q R (bind (ret x) k).
Proof. intros H out. exact (H out). Qed.

Lemma ends_bind {X} (R1 : exn + X -> Prop) (R2 : exn + A -> Prop)
    (m : M X) (k : X -> M A) :
  ends Q R1 m ->
  (forall e, R1 (inl e) -> R2 (inl e)) ->
  (forall x, R1 (inr x) -> ends Q R2 (k x)) ->
  ends Q R2 (bind m k).
Proof.
  intros Hm He Hk out. destruct (Hm out) as (r & evs & Em & Hevs & Hr).
  unfold bind. rewrite Em. destruct r as [e|x].
  - exists (inl e), evs. auto.
  - destruct (Hk x Hr (out ++ evs)) as (r' & evs' & Ek & Hevs' & Hr').
    exists r', (evs ++ evs'). rewrite Ek, app_assoc. split; [reflexivity|].
    split; [|exact Hr']. apply Forall_app. auto.
Qed.

Lemma ends_weaken (R R' : exn + A -> Prop) (m : M A) :
  (forall r, R r -> R' r) -> ends Q R m -> ends Q R' m.
Proof.
  intros HR Hm out. destruct (Hm out) as (r & evs & E & Hevs & Hr).
  exists r, evs. auto.
Qed.

End Ends.

Lemma ends_emit (Q : event -> Prop) (R : exn + unit -> Prop) (ev : event) :
  Q ev -> R (inr tt) -> ends Q R (emit ev).
Proof.
  intros Hev Hr out. exists (inr tt), [ev]. unfold emit. auto.
Qed.

Lemma handler_emit ln ev : ev <> Call_coolant_on -> handler_ok ln (emit ev).
Proof. intros H. apply ends_emit; [exact H | exact I]. Qed.

Lemma handler_raise_tagged ln (rest : string) :
  handler_ok ln (raise (RuntimeError (line_tag ln ++ rest)))
  /\ handler_ok ln (raise (ValueError (line_tag ln ++ rest))).
Proof. split; apply ends_raise; apply cites_line_tag. Qed.

Section HandlersEnd.

Variable B : builtins.

Lemma ends_parse_tool gcode ln args : handler_ok ln (_parse_tool gcode ln args).
Proof.
  unfold _parse_tool, change_tool. destruct (negb _).
  - apply ends_raise. exact I.
  - apply handler_emit. discriminate.
Qed.

Lemma ends_parse_feedrate gcode ln args :
  handler_ok ln (_parse_feedrate B gcode ln args).
Proof.
  unfold _parse_feedrate, set_feed_rate. destruct (negb _).
  - apply ends_raise. exact I.
  - destruct (py_float B _).
    + apply handler_emit. discriminate.
    + apply handler_raise_tagged.
Qed.

Lemma ends_parse_speed gcode ln args :
  handler_ok ln (_parse_speed B gcode ln args).
Proof.
  unfold _parse_speed, set_spindle_speed. destruct (negb _).
  - apply ends_raise. exact I.
  - destruct (py_int B _).
    + apply handler_emit. discriminate.
    + apply handler_raise_tagged.
Qed.

(** The loop of the general branch never indexes an empty tuple: it reads
    [args[0]] only while it visits an element of [args]. *)
Lemma ends_move_loop gcode ln args : forall rest xyz,
  (rest <> [] -> args <> []) ->
  ends not_coolant_on (result_ok (fun _ => True) ln)
       (move_loop B gcode ln args rest xyz).
Proof.
  induction rest as [|arg rest IH]; intros [[x y] z] Hargs; simpl.
  - apply ends_ret. exact I.
  - assert (Hrest : rest <> [] -> args <> []).
    { intros _. apply Hargs. discriminate. }
    assert (Hconv : forall f : float -> float * float * float,
               ends not_coolant_on (result_ok (fun _ => True) ln)
                 match py_float B (tail_str arg) with
                 | Conv v => move_loop B gcode ln args rest (f v)
                 | ConvError e =>
                     raise (ValueError
                              (line_tag ln ++ "Could not parse argument "
                               ++ arg ++ " for code " ++ gcode ++ ": ("
                               ++ e ++ ")"))
                 end).
    { intros f. destruct (py_float B _);
        [now apply IH | apply ends_raise, cites_line_tag]. }
    destruct (startswith arg "X"); [apply (Hconv (fun v => (v, y, z)))|].
    destruct (startswith arg "Y"); [apply (Hconv (fun v => (x, v, z)))|].
    destruct (startswith arg "Z"); [apply (Hconv (fun v => (x, y, v)))|].
    destruct args as [|a0 args']; [now destruct Hargs|].
    apply ends_bind_ret. apply ends_raise, cites_line_tag.
Qed.

Lemma ends_parse_move gcode ln args :
  handler_ok ln (_parse_move B gcode ln args).
Proof.
  unfold _parse_move, move, move_x, move_y, move_z.
  destruct (_ && _); [apply handler_emit; discriminate|].
  destruct (length args =? 1) eqn:Elen.
  - destruct args as [|a0 [|a1 args']]; try discriminate Elen.
    apply ends_bind_ret.
    destruct (py_float B _); [|apply handler_raise_tagged].
    destruct (startswith a0 "X"); [apply handler_emit; discriminate|].
    destruct (startswith a0 "Y"); [apply handler_emit; discriminate|].
    destruct (startswith a0 "Z"); [apply handler_emit; discriminate|].
    apply handler_raise_tagged.
  - eapply ends_bind.
    + apply ends_move_loop. auto.
    + auto.
    + intros [[x y] z] _. apply handler_emit. discriminate.
Qed.

Lemma handlers_ok_init : handlers_ok (__init__ B).
Proof.
  intros key cmd H gcode ln args. apply dict_get_In in H. simpl in H.
  repeat (destruct H as [<-|H]; [simpl|]); try contradiction;
    try apply ends_parse_move; try apply ends_parse_tool;
    try apply ends_parse_speed; try apply ends_parse_feedrate;
    try (apply handler_emit; discriminate);
    try (apply ends_ret; exact I).
Qed.

End HandlersEnd.

Section ParseEnds.

Variable self : MachineClient.
Hypothesis self_ok : handlers_ok self.

(** A turn of the loop at an index in range: the token is there, the
    arguments are found, and [ii] moves forward. *)
Lemma ends_dispatch_at parts ln ii :
  ii < length parts ->
  ends not_coolant_on (result_ok (fun ii' => ii < ii') ln)
       (dispatch_at self parts ln ii).
Proof.
  intros Hlt. unfold dispatch_at, index.
  destruct (nth_error parts ii) as [tok|] eqn:Etok;
    [|apply nth_error_None in Etok; lia].
  apply ends_bind_ret. destruct (startswith tok "N").
  - apply ends_ret. simpl. lia.
  - rewrite resolve_key_pure. apply ends_bind_ret.
    assert (Hunknown :
              ends not_coolant_on (result_ok (fun ii' => ii < ii') ln)
                   (raise (RuntimeError (unknown_code_msg ln tok)))).
    { apply ends_raise. apply cites_line_unknown_code. }
    destruct (key_of_token tok) as [key|]; [|exact Hunknown].
    destruct (dict_get (_KNOWN_COMMANDS self) key) as [cmd|] eqn:Ecmd;
      [|exact Hunknown].
    rewrite extract_args_spec. apply ends_bind_ret.
    eapply ends_bind.
    + apply (self_ok _ Ecmd).
    + auto.
    + intros _ _. apply ends_ret. simpl. lia.
Qed.

Lemma ends_dispatch_loop parts ln : forall fuel ii,
  length parts - ii <= fuel ->
  ends not_coolant_on (result_ok (fun _ => True) ln)
       (dispatch_loop fuel self parts ln ii).
Proof.
  induction fuel as [|fuel IH]; intros ii Hfuel; simpl;
    destruct (ii <? length parts) eqn:Elt;
    try (apply ends_ret; exact I); apply Nat.ltb_lt in Elt.
  - lia.
  - eapply ends_bind.
    + now apply ends_dispatch_at.
    + auto.
    + intros ii' Hii. apply IH. simpl in Hii. lia.
Qed.

Lemma ends_parse_line ln line : handler_ok ln (parse_line self ln line).
Proof.
  unfold parse_line. destruct (negb _).
  - apply ends_raise. apply cites_line_tag.
  - apply ends_dispatch_loop. lia.
Qed.

(** The loop over the lines: an exception is one of the line that raised it,
    whose ordinal is among those of the lines given. *)
Lemma ends_run_from : forall survivors start,
  ends not_coolant_on
       (fun r => match r with
                 | inl e => exists ln, start <= ln < start + length survivors
                                       /\ exn_ok ln e
                 | inr _ => True
                 end)
       (run_from self start survivors).
Proof.
  unfold run_from. induction survivors as [|line rest IH]; intros start; simpl.
  - apply ends_ret. exact I.
  - eapply ends_bind.
    + apply ends_parse_line.
    + intros e He. exists start. split; [lia | exact He].
    + intros _ _. eapply ends_weaken; [|apply (IH (S start))].
      intros [e|[]]; [|auto]. intros (ln & Hln & He).
      exists ln. split; [lia | exact He].
Qed.

End ParseEnds.

(** X1: whatever the lines and the builtins, [parse_gcode] ends and never
    with an [IndexError]: [parts[ii]], [parts[j]] in [extract_args], and
    [args[0]] in [_parse_move] are always in range. *)
Theorem parse_gcode_never_index_error :
  forall (B : builtins) (lines : list string) (out : list event),
    exists r out',
      parse_gcode (__init__ B) lines out = Some (r, out')
      /\ r <> inl IndexError.
Proof.
  intros B lines out.
  destruct (ends_run_from (handlers_ok_init B) (_non_empty_lines lines) 1 out)
    as (r & evs & E & _ & Hr).
  exists r, (out ++ evs). split; [exact E|].
  intros ->. destruct Hr as (ln & _ & []).
Qed.

(** X2: whatever the lines and the builtins, [parse_gcode] only appends to
    the output, and never a call of [coolant_on]: no code of the table leads
    to it. *)
Theorem parse_gcode_never_coolant_on :
  forall (B : builtins) (lines : list string) (out : list event),
    exists r calls,
      parse_gcode (__init__ B) lines out = Some (r, out ++ calls)
      /\ ~ In Call_coolant_on calls.
Proof.
  intros B lines out.
  destruct (ends_run_from (handlers_ok_init B) (_non_empty_lines lines) 1 out)
    as (r & evs & E & Hevs & _).
  exists r, evs. split; [exact E|].
  intros Hin. rewrite Forall_forall in Hevs. now apply (Hevs _ Hin).
Qed.


(** ** Lines one after the other *)

(** X4: the first exception ends the parse: when the lines [pre] end with an
    exception, the lines after them are never looked at, and the result and
    the calls made are those of [pre]. *)
Theorem parse_gcode_stops_at_first_error :
  forall (self : MachineClient) (pre post : list string)
         (out out' : list event) (e : exn),
    parse_gcode self pre out = Some (inl e, out') ->
    parse_gcode self (pre ++ post) out = Some (inl e, out').
Proof.
  intros self pre post out out' e H. rewrite parse_gcode_app.
  now apply bind_exn.
Qed.

(** X4 on two lines, the second with an unknown code, followed by a third
    line that is never run. *)
Lemma parse_gcode_stops_at_first_error_witness :
  parse_gcode (__init__ dec_builtins) (["N1 M09"; "N8 G99"] ++ ["N2 G28"]) []
  = Some (inl (RuntimeError "[Line: 2]: Unknown code G99"), [Call_coolant_off]).
Proof.
  apply (@parse_gcode_stops_at_first_error
           (__init__ dec_builtins) ["N1 M09"; "N8 G99"] ["N2 G28"] []).
  reflexivity.
Defined.

(** X5: the only thing carried from line to line is the count of surviving
    lines: after lines [pre] that returned normally, parsing [pre ++ post]
    goes on with the survivors of [post], numbered from one more than the
    number of survivors of [pre], on the output that [pre] left. *)
Theorem parse_gcode_continues_after_lines :
  forall (self : MachineClient) (pre post : list string)
         (out out' : list event),
    parse_gcode self pre out = Some (inr tt, out') ->
    parse_gcode self (pre ++ post) out
    = for_each (enumerate (1 + length (_non_empty_lines pre))
                          (_non_empty_lines post))
               (fun '(ln, line) => parse_line self ln line) out'.
Proof.
  intros self pre post out out' H. rewrite parse_gcode_app.
  erewrite bind_value; [reflexivity | exact H].
Qed.

(** X5 after one line with a comment before it: the next line has ordinal
    2. *)
Lemma parse_gcode_continues_after_lines_witness :
  parse_gcode (__init__ dec_builtins) (["(start)"; "N1 M09"] ++ ["N2 G99"]) []
  = for_each (enumerate 2 ["N2 G99"])
             (fun '(ln, line) => parse_line (__init__ dec_builtins) ln line)
             [Call_coolant_off].
Proof.
  apply (@parse_gcode_continues_after_lines
           (__init__ dec_builtins) ["(start)"; "N1 M09"] ["N2 G99"] []).
  reflexivity.
Defined.

(** X6: lines that the classifier drops (blank lines, bracketed comments,
    program numbers, [%]) can be put anywhere or taken out without any
    change to the result of the parse, to the calls it makes, or to the line
    numbers in its messages. *)
Theorem parse_gcode_ignores_dropped_lines :
  forall (self : MachineClient) (pre junk post : list string),
    Forall (fun raw => survives (strip raw) = false) junk ->
    forall out,
      parse_gcode self (pre ++ junk ++ post) out
      = parse_gcode self (pre ++ post) out.
Proof.
  intros self pre junk post Hjunk out. unfold parse_gcode.
  now rewrite !non_empty_lines_app, (non_empty_lines_skipped Hjunk).
Qed.

(** X6 with a comment, a [%] and a blank line before a line that raises:
    the message cites line 2 with and without them. *)
Lemma parse_gcode_ignores_dropped_lines_witness :
  parse_gcode (__init__ dec_builtins)
    (["N1 M09"] ++ ["(tool)"; "%"; "  "] ++ ["N2 G99"]) []
  = parse_gcode (__init__ dec_builtins) (["N1 M09"] ++ ["N2 G99"]) [].
Proof.
  apply (@parse_gcode_ignores_dropped_lines
           (__init__ dec_builtins) ["N1 M09"] ["(tool)"; "%"; "  "] ["N2 G99"]).
  repeat constructor.
Defined.

(** ** Tokens outside the vocabulary *)

Lemma dict_get_absent (d : dict) (key : string) :
  Forall (fun kv => fst kv <> key) d -> dict_get d key = None.
Proof.
  induction 1 as [|[k v] d Hk _ IH]; simpl; [reflexivity|].
  simpl in Hk. apply String.eqb_neq in Hk. now rewrite Hk.
Qed.

Lemma existsb_eqb_false (tok : string) (codes : list string) :
  existsb (String.eqb tok) codes = false ->
  Forall (fun k => k <> tok) codes.
Proof.
  induction codes as [|k codes IH]; simpl; intros H; constructor.
  - apply orb_false_iff in H as [H _]. apply String.eqb_neq in H. congruence.
  - apply IH. now apply orb_false_iff in H as [_ H].
Qed.

(** A token that starts with G or M and is none of the seventeen codes has
    no entry. *)
Lemma dict_get_unknown_G_M (B : builtins) (tok : string) :
  startswith tok "G" || startswith tok "M" = true ->
  existsb (String.eqb tok) G_M_codes = false ->
  dict_get (_KNOWN_COMMANDS (__init__ B)) tok = None.
Proof.
  intros Hletter Hcodes. apply existsb_eqb_false in Hcodes.
  apply dict_get_absent. unfold G_M_codes in Hcodes.
  assert (Hsingle : forall c, tok = String c "" ->
                    Ascii.eqb "G" c || Ascii.eqb "M" c = true).
  { intros c ->. now rewrite !startswith_char in Hletter. }
  repeat (apply Forall_cons_iff in Hcodes as [?H Hcodes]).
  simpl. repeat (constructor; [simpl; try assumption|]);
    try (intros E; symmetry in E; apply Hsingle in E; discriminate E).
  constructor.
Qed.

(** X7: a token that is reached by the loop and starts with none of the
    letters N, G, M, S, T, F (the empty token between two spaces and a code
    in lower case are such tokens), or that starts with G or M without being
    one of the seventeen codes of the table, ends the parse with the
    unknown-code [RuntimeError], which cites the line and the token; nothing
    is emitted for it. *)
Theorem dispatch_at_outside_vocabulary :
  forall (B : builtins) (parts : list string) (ln ii : nat) (tok : string)
         (out : list event),
    nth_error parts ii = Some tok ->
    first_char_in dispatch_letter tok = false
    \/ (startswith tok "G" || startswith tok "M" = true
        /\ existsb (String.eqb tok) G_M_codes = false) ->
    dispatch_at (__init__ B) parts ln ii out
    = Some (inl (RuntimeError (unknown_code_msg ln tok)), out).
Proof.
  intros B parts ln ii tok out Htok Hcase.
  apply dispatch_at_unknown; [exact Htok | |].
  - rewrite startswith_char. destruct tok as [|c tok']; [reflexivity|].
    destruct Hcase as [H | [H _]].
    + simpl in H. unfold dispatch_letter in H.
      rewrite !orb_false_iff in H. rewrite Ascii.eqb_sym. tauto.
    + rewrite !startswith_char in H.
      destruct (Ascii.eqb_spec "N" c) as [<-|]; [discriminate H | reflexivity].
  - destruct Hcase as [H | [Hletter Hcodes]].
    + destruct tok as [|c tok']; [exact I|]. simpl in H |- *.
      unfold dispatch_letter in H. rewrite !orb_false_iff in H.
      destruct H as [[[[[_ HG] HM] HS] HT] HF].
      now rewrite HG, HM, HS, HT, HF.
    + pose proof (dict_get_unknown_G_M B _ Hletter Hcodes) as Hnone.
      destruct tok as [|c tok']; [exact I|]. simpl.
      rewrite !startswith_char, !(Ascii.eqb_sym _ c) in Hletter.
      rewrite Hletter. exact Hnone.
Qed.

(** X7 on the line [N1 g00 X1] at its second token, a code in lower case. *)
Lemma dispatch_at_outside_vocabulary_witness :
  dispatch_at (__init__ dec_builtins) ["N1"; "g00"; "X1"] 1 1 []
  = Some (inl (RuntimeError (unknown_code_msg 1 "g00")), []).
Proof.
  apply (@dispatch_at_outside_vocabulary
           dec_builtins ["N1"; "g00"; "X1"] 1 1 "g00" [] eq_refl).
  left. reflexivity.
Defined.

(** ** Moves *)

Section Moves.

Variable B : builtins.

Lemma startswith_axes arg :
  startswith arg "X" = true ->
  startswith arg "Y" = false /\ startswith arg "Z" = false.
Proof.
  rewrite !startswith_char. destruct arg as [|c arg']; [discriminate|].
  intros H. apply Ascii.eqb_eq in H as <-. split; reflexivity.
Qed.

Lemma startswith_axes_Y arg :
  startswith arg "Y" = true -> startswith arg "Z" = false.
Proof.
  rewrite !startswith_char. destruct arg as [|c arg']; [discriminate|].
  intros H. apply Ascii.eqb_eq in H as <-. reflexivity.
Qed.

(** On arguments that are all axis arguments, the loop of the general
    branch ends with the last value given for each axis. *)
Lemma move_loop_axis_values gcode ln args : forall rest x y z out,
  forallb (axis_argument B) rest = true ->
  move_loop B gcode ln args rest (x, y, z) out
  = Some (inr (axis_value B "X" rest x, axis_value B "Y" rest y,
               axis_value B "Z" rest z), out).
Proof.
  induction rest as [|arg rest IH]; intros x y z out Hall; [reflexivity|].
  simpl in Hall. apply andb_true_iff in Hall as [Harg Hall].
  unfold axis_argument in Harg. apply andb_true_iff in Harg as [Hletter Hconv].
  simpl. destruct (py_float B (tail_str arg)) as [v|e]; [|discriminate Hconv].
  destruct (startswith arg "X") eqn:EX.
  - destruct (startswith_axes _ EX) as [-> ->]. now apply IH.
  - destruct (startswith arg "Y") eqn:EY.
    + rewrite (startswith_axes_Y _ EY). now apply IH.
    + destruct (startswith arg "Z") eqn:EZ; [now apply IH | discriminate].
Qed.

(** The loop of the general branch emits nothing. *)
Lemma move_loop_silent gcode ln args : forall rest xyz out r out',
  move_loop B gcode ln args rest xyz out = Some (r, out') -> out' = out.
Proof.
  induction rest as [|arg rest IH]; intros [[x y] z] out r out' H; simpl in H.
  - now injection H as _ <-.
  - assert (Hconv : forall f : float -> float * float * float,
               match py_float B (tail_str arg) with
               | Conv v => move_loop B gcode ln args rest (f v)
               | ConvError e =>
                   raise (ValueError
                            (line_tag ln ++ "Could not parse argument "
                             ++ arg ++ " for code " ++ gcode ++ ": ("
                             ++ e ++ ")"))
               end out = Some (r, out') -> out' = out).
    { intros f Hf. destruct (py_float B _);
        [now apply IH in Hf | now injection Hf as _ <-]. }
    destruct (startswith arg "X"); [now apply Hconv in H|].
    destruct (startswith arg "Y"); [now apply Hconv in H|].
    destruct (startswith arg "Z"); [now apply Hconv in H|].
    unfold bind, index in H.
    destruct (nth_error args 0); simpl in H; now injection H as _ <-.
Qed.

End Moves.

(** X8: in the general branch of [_parse_move] (any number of arguments but
    one, and not [G00] alone), when every argument starts with X, Y or Z and
    continues with a number, [move] is called once, and each coordinate is
    the value of the last argument given for its axis, or 0.0 when the axis
    is not given; the order of the arguments does not matter otherwise. *)
Theorem parse_move_general_branch :
  forall (B : builtins) (gcode : string) (ln : nat) (args : list string)
         (out : list event),
    length args <> 1 ->
    String.eqb (upper gcode) "G00" && (length args =? 0) = false ->
    forallb (axis_argument B) args = true ->
    _parse_move B gcode ln args out
    = Some (inr tt,
            out ++ [Call_move (axis_value B "X" args 0)
                              (axis_value B "Y" args 0)
                              (axis_value B "Z" args 0)]).
Proof.
  intros B gcode ln args out Hlen Hrapid Hall. unfold _parse_move.
  rewrite Hrapid. apply Nat.eqb_neq in Hlen. rewrite Hlen.
  erewrite bind_value; [|now apply move_loop_axis_values]. reflexivity.
Qed.

(** X8 on [G01 Z7 X1 Y2 X3]: the second value of X wins. *)
Lemma parse_move_general_branch_witness :
  _parse_move dec_builtins "G01" 1 ["Z7"; "X1"; "Y2"; "X3"] []
  = Some (inr tt, [Call_move 3 2 7]).
Proof.
  apply (@parse_move_general_branch
           dec_builtins "G01" 1 ["Z7"; "X1"; "Y2"; "X3"] []).
  - discriminate.
  - reflexivity.
  - reflexivity.
Defined.

(** ** A turn that raises *)

Section Atomic.

Variable B : builtins.

Lemma atomic_ret {A} (a : A) : atomic (ret a).
Proof. intros out e out' H. discriminate H. Qed.

Lemma atomic_raise {A} (e : exn) : atomic (@raise A e).
Proof. intros out e' out' H. now injection H as _ <-. Qed.

Lemma atomic_emit ev : atomic (emit ev).
Proof. intros out e out' H. discriminate H. Qed.

Lemma atomic_bind_ret {X A} (x : X) (k : X -> M A) :
  atomic (k x) -> atomic (bind (ret x) k).
Proof. intros Hk out e out' H. exact (Hk out e out' H). Qed.

Lemma atomic_then_ret {X A} (m : M X) (a : A) :
  atomic m -> atomic (bind m (fun _ => ret a)).
Proof.
  intros Hm out e out' H. unfold bind in H.
  destruct (m out) as [[[e0|x] out0]|] eqn:Em; try discriminate H.
  injection H as _ <-. exact (Hm _ _ _ Em).
Qed.

Lemma atomic_parse_tool gcode ln args : atomic (_parse_tool gcode ln args).
Proof.
  unfold _parse_tool, change_tool.
  destruct (negb _); [apply atomic_raise | apply atomic_emit].
Qed.

Lemma atomic_parse_feedrate gcode ln args :
  atomic (_parse_feedrate B gcode ln args).
Proof.
  unfold _parse_feedrate, set_feed_rate. destruct (negb _);
    [apply atomic_raise|].
  destruct (py_float B _); [apply atomic_emit | apply atomic_raise].
Qed.

Lemma atomic_parse_speed gcode ln args :
  atomic (_parse_speed B gcode ln args).
Proof.
  unfold _parse_speed, set_spindle_speed. destruct (negb _);
    [apply atomic_raise|].
  destruct (py_int B _); [apply atomic_emit | apply atomic_raise].
Qed.

Lemma atomic_parse_move gcode ln args : atomic (_parse_move B gcode ln args).
Proof.
  unfold _parse_move, move, move_x, move_y, move_z.
  destruct (_ && _); [apply atomic_emit|].
  destruct (length args =? 1).
  - intros out e out' H. unfold bind, index in H.
    destruct (nth_error args 0) as [a0|]; simpl in H;
      [|now injection H as _ <-].
    revert H. generalize out e out'.
    change (atomic
              match py_float B (tail_str a0) with
              | Conv val =>
                  if startswith a0 "X" then emit (Call_move_x val)
                  else if startswith a0 "Y" then emit (Call_move_y val)
                  else if startswith a0 "Z" then emit (Call_move_z val)
                  else raise (RuntimeError
                                (line_tag ln ++ "Unknown parameter " ++ a0
                                 ++ " for code: " ++ gcode))
              | ConvError e0 =>
                  raise (ValueError
                           (line_tag ln ++ "Could not parse argument " ++ a0
                            ++ " for code " ++ gcode ++ ": (" ++ e0 ++ ")"))
              end).
    destruct (py_float B _); [|apply atomic_raise].
    repeat (destruct (startswith a0 _); [apply atomic_emit|]).
    apply atomic_raise.
  - intros out e out' H. unfold bind in H.
    destruct (move_loop B gcode ln args args (0, 0, 0)%float out)
      as [[[e0|[[x y] z]] out0]|] eqn:Eloop; try discriminate H.
    apply move_loop_silent in Eloop. now injection H as _ <-.
Qed.

Lemma atomic_init key cmd :
  dict_get (_KNOWN_COMMANDS (__init__ B)) key = Some cmd ->
  forall gcode ln args, atomic (fn cmd gcode ln args).
Proof.
  intros H gcode ln args. apply dict_get_In in H. simpl in H.
  repeat (destruct H as [<-|H]; [simpl|]); try contradiction;
    try apply atomic_parse_move; try apply atomic_parse_tool;
    try apply atomic_parse_speed; try apply atomic_parse_feedrate;
    try apply atomic_emit; try apply atomic_ret.
Qed.

End Atomic.

(** X9: a turn of the dispatch loop that raises has emitted nothing: every
    callable of the table makes its machine call, or its print, as its last
    step, after all its checks and conversions.  The calls of a line that
    fails are those of the tokens before the failing one. *)
Theorem dispatch_at_raises_without_emitting :
  forall (B : builtins) (parts : list string) (ln ii : nat)
         (out out' : list event) (e : exn),
    dispatch_at (__init__ B) parts ln ii out = Some (inl e, out') ->
    out' = out.
Proof.
  intros B parts ln ii out out' e.
  enough (Hturn : atomic (dispatch_at (__init__ B) parts ln ii))
    by apply Hturn.
  unfold dispatch_at, index.
  destruct (nth_error parts ii) as [tok|]; [|apply atomic_raise].
  apply atomic_bind_ret. destruct (startswith tok "N"); [apply atomic_ret|].
  rewrite resolve_key_pure. apply atomic_bind_ret.
  destruct (key_of_token tok) as [key|]; [|apply atomic_raise].
  destruct (dict_get (_KNOWN_COMMANDS (__init__ B)) key) as [cmd|] eqn:Ecmd;
    [|apply atomic_raise].
  rewrite extract_args_spec. apply atomic_bind_ret.
  apply atomic_then_ret. exact (atomic_init B _ Ecmd _ _ _).
Qed.

(** X9 on [G01 X1 Y2 Q3], where two arguments are read before the third
    raises. *)
Lemma dispatch_at_raises_without_emitting_witness :
  dispatch_at (__init__ dec_builtins) ["N6"; "G01"; "X1"; "Y2"; "Q3"] 1 1
              [Call_coolant_off]
  = Some (inl (RuntimeError (unknown_parameter_msg 1 "X1" "G01")),
          [Call_coolant_off])
  /\ [Call_coolant_off] = [Call_coolant_off].
Proof.
  split; [reflexivity|].
  apply (@dispatch_at_raises_without_emitting
           dec_builtins ["N6"; "G01"; "X1"; "Y2"; "Q3"] 1 1
           [Call_coolant_off] [Call_coolant_off]
           (RuntimeError (unknown_parameter_msg 1 "X1" "G01"))).
  reflexivity.
Defined.

(** ** The classifier, once more *)

Lemma lstrip_first s : first_char_in isspace (lstrip s) = false.
Proof.
  induction s as [|c s IH]; simpl; [reflexivity|].
  destruct (isspace c) eqn:Ec; [exact IH | exact Ec].
Qed.

Lemma lstrip_fixed s : first_char_in isspace s = false -> lstrip s = s.
Proof. destruct s as [|c s]; simpl; [reflexivity | now intros ->]. Qed.

Lemma rstrip_first p s :
  first_char_in p (rstrip s) = true -> first_char_in p s = true.
Proof.
  destruct s as [|c s]; simpl; [discriminate|].
  destruct (rstrip s); [destruct (isspace c); [discriminate|]|]; auto.
Qed.

Lemma rstrip_idempotent s : rstrip (rstrip s) = rstrip s.
Proof.
  induction s as [|c s IH]; simpl; [reflexivity|].
  destruct (rstrip s) as [|c' r] eqn:Er.
  - destruct (isspace c) eqn:Ec; simpl; [reflexivity | now rewrite Ec].
  - change (rstrip (String c (String c' r)))
      with (match rstrip (String c' r) with
            | EmptyString =>
                if isspace c then EmptyString else String c EmptyString
            | r0 => String c r0
            end).
    now rewrite IH.
Qed.

Lemma strip_first s : first_char_in isspace (strip s) = false.
Proof.
  destruct (first_char_in isspace (strip s)) eqn:E; [|reflexivity].
  apply rstrip_first in E. now rewrite lstrip_first in E.
Qed.

Lemma strip_idempotent s : strip (strip s) = strip s.
Proof.
  unfold strip at 1. rewrite (lstrip_fixed _ (strip_first s)).
  apply rstrip_idempotent.
Qed.

Lemma non_empty_lines_In l lines :
  In l (_non_empty_lines lines) <->
  exists raw, In raw lines /\ l = strip raw /\ survives l = true.
Proof.
  rewrite non_empty_lines_spec. unfold classifier_spec.
  rewrite filter_In, in_map_iff. split.
  - intros [(raw & <- & Hraw) Hl]. eauto.
  - intros (raw & Hraw & -> & Hl). eauto.
Qed.

Lemma non_empty_lines_fixed lines :
  Forall (fun l => strip l = l /\ survives l = true) lines ->
  _non_empty_lines lines = lines.
Proof.
  induction 1 as [|l lines [Hstrip Hl] _ IH]; [reflexivity|].
  now rewrite non_empty_lines_cons, Hstrip, Hl, IH.
Qed.

(** X10: the classifier is idempotent: what it yields is yielded again,
    unchanged and in the same order, when it is classified once more. *)
Theorem non_empty_lines_idempotent :
  forall lines : list string,
    _non_empty_lines (_non_empty_lines lines) = _non_empty_lines lines.
Proof.
  intros lines. apply non_empty_lines_fixed. apply Forall_forall.
  intros l Hl. apply non_empty_lines_In in Hl as (raw & _ & -> & Hs).
  split; [apply strip_idempotent | exact Hs].
Qed.

(** X11: every line the classifier yields is the trimmed form of a line it
    was given, is not empty, neither starts nor ends with a blank character,
    and is none of the dropped forms; it yields no more lines than it was
    given. *)
Theorem non_empty_lines_are_trimmed :
  forall lines : list string,
    length (_non_empty_lines lines) <= length lines
    /\ Forall (fun l =>
                 (exists raw, In raw lines /\ l = strip raw)
                 /\ l <> ""
                 /\ first_char_in isspace l = false
                 /\ last_char_in isspace l = false
                 /\ _is_comment l = false
                 /\ _is_program_number l = false
                 /\ l <> "%")
              (_non_empty_lines lines).
Proof.
  intros lines. split.
  - rewrite non_empty_lines_spec. unfold classifier_spec.
    rewrite <- (length_map strip lines). apply filter_length_le.
  - apply Forall_forall. intros l Hl.
    apply non_empty_lines_In in Hl as (raw & Hraw & -> & Hs).
    unfold survives in Hs. rewrite !andb_true_iff, !negb_true_iff in Hs.
    destruct Hs as [[[Hne Hc] Hp] Hpc].
    repeat split.
    + eauto.
    + now apply String.eqb_neq.
    + apply strip_first.
    + unfold strip. apply rstrip_last.
    + now rewrite is_comment_strip.
    + now rewrite is_program_number_strip.
    + now apply String.eqb_neq.
Qed.

(** ** The two line tests on any string *)

(** X12: [_is_program_number] holds of the letter O followed by exactly four
    digits, and of such a string followed by one newline, and of nothing
    else: [$] also matches before a newline that ends the string. *)
Theorem is_program_number_language :
  forall s : string,
    _is_program_number s = true <->
    is_program_number_line s = true
    \/ exists u, s = (u ++ String newline "")%string
                 /\ is_program_number_line u = true.
Proof.
  intros s. unfold _is_program_number.
  rewrite RegexFacts.re_match_eol_spec, program_num_pattern_spec.
  split; (intros [H|(u & E & H)]; [now left | right; exists u]);
    (split; [exact E | now apply program_num_pattern_spec]).
Qed.

(** X13: [_is_comment] holds of an opening bracket, any characters but a
    newline, and a closing bracket that ends the string, and of such a string
    followed by one newline, and of nothing else; text after the closing
    bracket, or a newline inside, makes it fail. *)
Theorem is_comment_language :
  forall s : string,
    _is_comment s = true <->
    is_paren_comment s = true
    \/ exists u, s = (u ++ String newline "")%string
                 /\ is_paren_comment u = true.
Proof.
  intros s. unfold _is_comment.
  rewrite RegexFacts.re_match_eol_spec, comment_pattern_spec.
  split; (intros [H|(u & E & H)]; [now left | right; exists u]);
    (split; [exact E | now apply comment_pattern_spec]).
Qed.

(** ** [extract_args], once more *)

Lemma take_until_app_prefix {A} (stop : A -> bool) (xs ys : list A) :
  exists more, take_until stop (xs ++ ys) = take_until stop xs ++ more.
Proof.
  induction xs as [|x xs (more & IH)]; simpl.
  - exists (take_until stop ys). reflexivity.
  - destruct (stop x); [exists []; reflexivity|].
    exists more. simpl. now rewrite IH.
Qed.

Lemma take_until_fixed {A} (stop : A -> bool) (xs : list A) :
  Forall (fun x => stop x = false) xs -> take_until stop xs = xs.
Proof.
  induction 1 as [|x xs Hx _ IH]; simpl; [reflexivity|].
  now rewrite Hx, IH.
Qed.

Lemma extract_args_zero parts : extract_args parts 0 = Some [].
Proof. rewrite extract_args_spec, Nat.min_0_r. reflexivity. Qed.

(** X14: a larger arity only adds arguments: for [n <= m], the arguments
    extracted with arity [n] are a prefix of those extracted with arity [m]
    from the same tokens. *)
Theorem extract_args_monotone :
  forall (parts : list string) (n m : nat),
    n <= m ->
    exists args more,
      extract_args parts n = Some args
      /\ extract_args parts m = Some (args ++ more).
Proof.
  intros parts n m Hnm. rewrite !extract_args_spec.
  set (a := Nat.min (length parts) n). set (b := Nat.min (length parts) m).
  assert (Hsplit : firstn b parts
                   = firstn a parts ++ skipn a (firstn b parts)).
  { rewrite <- (firstn_skipn a (firstn b parts)) at 1.
    rewrite firstn_firstn. f_equal. f_equal. unfold a, b. lia. }
  destruct (take_until_app_prefix looks_like_code (firstn a parts)
              (skipn a (firstn b parts))) as (more & Hmore).
  exists (take_until looks_like_code (firstn a parts)), more.
  split; [reflexivity|]. now rewrite Hsplit, Hmore.
Qed.

(** X14 on the tokens [X1 Y2 Z3 G01] with the arities 1 and 3. *)
Lemma extract_args_monotone_witness :
  exists args more,
    extract_args ["X1"; "Y2"; "Z3"; "G01"] 1 = Some args
    /\ extract_args ["X1"; "Y2"; "Z3"; "G01"] 3 = Some (args ++ more).
Proof.
  apply (@extract_args_monotone ["X1"; "Y2"; "Z3"; "G01"] 1 3). lia.
Defined.

(** X15: the arguments extracted are arguments throughout: extracting again
    from them, with the same arity, gives them all back. *)
Theorem extract_args_idempotent :
  forall (parts args : list string) (n : nat),
    extract_args parts n = Some args ->
    extract_args args n = Some args.
Proof.
  intros parts args n H. rewrite extract_args_spec in H. injection H as H.
  rewrite extract_args_spec. f_equal.
  assert (Hlen : length args <= n).
  { rewrite <- H. rewrite take_until_length, length_firstn. lia. }
  rewrite Nat.min_l by exact Hlen. rewrite firstn_all.
  apply take_until_fixed. rewrite <- H. apply take_until_none.
Qed.

(** X15 on the tokens [X1 Y2 N9 G01] with arity 3. *)
Lemma extract_args_idempotent_witness :
  extract_args ["X1"; "Y2"] 3 = Some ["X1"; "Y2"].
Proof.
  apply (@extract_args_idempotent ["X1"; "Y2"; "N9"; "G01"] ["X1"; "Y2"] 3).
  reflexivity.
Defined.

(** ** Commands that carry their value in the token *)

Lemma key_of_token_letter (c : ascii) (tok' : string) :
  Ascii.eqb c "G" || Ascii.eqb c "M" = false ->
  Ascii.eqb c "S" || Ascii.eqb c "T" || Ascii.eqb c "F" = true ->
  key_of_token (String c tok') = Some (String c "").
Proof. intros H1 H2. simpl. now rewrite H1, H2. Qed.

Lemma startswith_letter (tok : string) (c : ascii) :
  startswith tok (String c "") = true -> exists tok', tok = String c tok'.
Proof.
  rewrite startswith_char. destruct tok as [|c' tok']; [discriminate|].
  intros H. apply Ascii.eqb_eq in H as <-. eauto.
Qed.

(** X16: a token that starts with S, or with F, is a whole command: when the
    loop reaches it, nothing after it is consumed ([ii] moves by one).  What
    follows the letter is converted, by [int] for S and by [float] for F, and
    passed to [set_spindle_speed] or [set_feed_rate]; when the conversion
    fails the parse ends with a [ValueError] that cites the line and the
    token, and when the token is the letter alone it ends with an
    [AssertionError]; in both cases nothing is emitted. *)
Theorem dispatch_at_speed_and_feed :
  forall (B : builtins) (parts : list string) (ln ii : nat) (tok : string)
         (out : list event),
    nth_error parts ii = Some tok ->
    (startswith tok "S" = true ->
     dispatch_at (__init__ B) parts ln ii out
     = if String.length tok <=? 1
       then Some (inl (AssertionError
                         "Expected a gcode with more than 1 character"), out)
       else match py_int B (tail_str tok) with
            | Conv speed =>
                Some (inr (ii + 1), out ++ [Call_set_spindle_speed speed])
            | ConvError e =>
                Some (inl (ValueError
                             (line_tag ln ++ "Could not parse command "
                              ++ tok ++ ": (" ++ e ++ ")")), out)
            end)
    /\ (startswith tok "F" = true ->
        dispatch_at (__init__ B) parts ln ii out
        = if String.length tok <=? 1
          then Some (inl (AssertionError
                            "Excepted a gcode with more than 1 character"),
                     out)
          else match py_float B (tail_str tok) with
               | Conv val =>
                   Some (inr (ii + 1), out ++ [Call_set_feed_rate val])
               | ConvError e =>
                   Some (inl (ValueError
                                (line_tag ln ++ "Could not parse code "
                                 ++ tok ++ ": (" ++ e ++ ")")), out)
               end).
Proof.
  intros B parts ln ii tok out Htok. split; intros Hletter;
    apply startswith_letter in Hletter as (tok' & ->);
    (erewrite dispatch_at_command;
     [ | exact Htok | reflexivity | apply key_of_token_letter; reflexivity
       | reflexivity | apply extract_args_zero ]);
    simpl fn; unfold bind.
  - unfold _parse_speed, set_spindle_speed. simpl String.length.
    simpl tail_str. destruct tok' as [|c' tok'']; [reflexivity|]. simpl.
    destruct (py_int B _); reflexivity.
  - unfold _parse_feedrate, set_feed_rate. simpl String.length.
    simpl tail_str. destruct tok' as [|c' tok'']; [reflexivity|]. simpl.
    destruct (py_float B _); reflexivity.
Qed.

(** X16 on the line [N5 S1200 F0.5] at its second and third tokens. *)
Lemma dispatch_at_speed_and_feed_witness :
  dispatch_at (__init__ dec_builtins) ["N5"; "S1200"; "F0.5"] 5 1 []
  = Some (inr 2, [Call_set_spindle_speed 1200])
  /\ dispatch_at (__init__ dec_builtins) ["N5"; "S1200"; "F0.5"] 5 2 []
     = Some (inr 3, [Call_set_feed_rate 0.5]).
Proof.
  split.
  - apply (@dispatch_at_speed_and_feed
             dec_builtins ["N5"; "S1200"; "F0.5"] 5 1 "S1200" [] eq_refl).
    reflexivity.
  - apply (@dispatch_at_speed_and_feed
             dec_builtins ["N5"; "S1200"; "F0.5"] 5 2 "F0.5" [] eq_refl).
    reflexivity.
Defined.

Lemma nth_error_hd_skipn {A} (xs : list A) : forall n,
  nth_error xs n = hd_error (skipn n xs).
Proof.
  induction xs as [|x xs IH]; intros [|n]; simpl; try reflexivity. apply IH.
Qed.

(** The arguments extracted with arity 1: the next token, unless there is
    none or it looks like a code. *)
Lemma extract_args_one rest :
  extract_args rest 1
  = Some match hd_error rest with
         | Some next => if looks_like_code next then [] else [next]
         | None => []
         end.
Proof.
  rewrite extract_args_spec. destruct rest as [|next rest']; [reflexivity|].
  simpl. rewrite Nat.min_0_r. simpl. destruct (looks_like_code next); reflexivity.
Qed.

(** X17: a token that starts with T and has a character more is a tool
    change with what follows the letter as the tool name.  Its entry has
    arity 1: the token after it, when there is one and it does not look like
    a code (so also another T token, or an axis word), is consumed as its
    argument and ignored, and [ii] moves by two; otherwise [ii] moves by
    one. *)
Theorem dispatch_at_tool :
  forall (B : builtins) (parts : list string) (ln ii : nat) (tok : string)
         (out : list event),
    nth_error parts ii = Some tok ->
    startswith tok "T" = true ->
    1 < String.length tok ->
    let consumed :=
      match nth_error parts (ii + 1) with
      | Some next => if looks_like_code next then 0 else 1
      | None => 0
      end in
    dispatch_at (__init__ B) parts ln ii out
    = Some (inr (ii + (consumed + 1)),
            out ++ [Call_change_tool (tail_str tok)]).
Proof.
  intros B parts ln ii tok out Htok Hletter Hlen consumed.
  apply startswith_letter in Hletter as (tok' & ->).
  erewrite dispatch_at_command;
    [ | exact Htok | reflexivity | apply key_of_token_letter; reflexivity
      | reflexivity | apply extract_args_one ].
  simpl fn. unfold bind, _parse_tool, change_tool.
  destruct tok' as [|c' tok'']; [simpl in Hlen; lia|]. simpl.
  unfold emit, ret, consumed. rewrite nth_error_hd_skipn.
  destruct (hd_error (skipn (ii + 1) parts)) as [next|]; [|reflexivity].
  destruct (looks_like_code next); reflexivity.
Qed.

(** X17 on the tokens [N1 T1 T2]: the second tool change is consumed as the
    argument of the first. *)
Lemma dispatch_at_tool_witness :
  dispatch_at (__init__ dec_builtins) ["N1"; "T1"; "T2"] 1 1 []
  = Some (inr 3, [Call_change_tool "1"]).
Proof.
  apply (@dispatch_at_tool dec_builtins ["N1"; "T1"; "T2"] 1 1 "T1" [] eq_refl).
  - reflexivity.
  - simpl. lia.
Defined.

(** ** Codes that only inform *)

(** X18: the twelve codes G17, G21, G40, G49, G54, G80, G90, G91, G94, M03,
    M05 and M30 never reach the machine and never raise: when the loop
    reaches one of them it emits at most one [print] and no machine action,
    consumes no token after the code, and goes on with the next token. *)
Theorem dispatch_at_informational :
  forall (B : builtins) (parts : list string) (ln ii : nat) (tok : string)
         (out : list event),
    nth_error parts ii = Some tok ->
    In tok informational_codes ->
    exists evs,
      dispatch_at (__init__ B) parts ln ii out = Some (inr (ii + 1), out ++ evs)
      /\ length evs <= 1
      /\ forallb is_print evs = true.
Proof.
  intros B parts ln ii tok out Htok Hin. unfold informational_codes in Hin.
  simpl in Hin.
  repeat (destruct Hin as [<-|Hin];
          [ erewrite dispatch_at_command;
            [ | exact Htok | reflexivity | reflexivity | reflexivity
              | apply extract_args_zero ];
            first [ exists []; rewrite app_nil_r; repeat split; simpl; lia
                  | eexists [_]; repeat split; simpl; lia ]
          | ]).
  contradiction.
Qed.

(** X18 on the line [N1 G90 G17 X1] at the code [G17], whose next token is
    left for the next turn. *)
Lemma dispatch_at_informational_witness :
  exists evs,
    dispatch_at (__init__ dec_builtins) ["N1"; "G90"; "G17"; "X1"] 1 2 []
    = Some (inr 3, [] ++ evs)
    /\ length evs <= 1
    /\ forallb is_print evs = true.
Proof.
  apply (@dispatch_at_informational
           dec_builtins ["N1"; "G90"; "G17"; "X1"] 1 2 "G17" [] eq_refl).
  simpl. tauto.
Defined.
